(** * OneIT chat frontend: a shallow embedding of [frontend/src/App.js]

    The React component [App] keeps five pieces of state ([messages],
    [input], [isLoading], [suggestions], [isListening]) and mutates them only
    from event handlers and from the continuations of two [fetch] calls.
    Every handler is embedded as a function on an explicit state record; the
    asynchronous [sendMessage] is split at its [await] into the part that
    runs at the call and the continuation that runs when the request
    settles.  JavaScript values that come from the network keep their
    dynamic type. *)

From Stdlib Require Import ZArith Lia Ascii.
From stdpp Require Import gmap strings list.

(** ** Strings

    A JavaScript string is carried as the [string] of its UTF-8 bytes.  The
    operations below look at ASCII bytes and at the byte sequences of the few
    non-ASCII characters the ECMAScript definitions of [trim] and of the
    regular-expression dot single out; on well-formed UTF-8 they agree with
    the code-unit definitions. *)

Module JsString.

Definition code (a : ascii) : N := N_of_ascii a.

Definition LF : string := String "010" "".
Definition CR : string := String "013" "".
(** U+2028 LINE SEPARATOR and U+2029 PARAGRAPH SEPARATOR. *)
Definition LS : string := String "226" (String "128" (String "168" "")).
Definition PS : string := String "226" (String "128" (String "169" "")).

(** [s.includes(t)]: [t] occurs in [s] as a contiguous substring. *)
Definition includes (s t : string) : Prop :=
  ∃ pre post, s = pre +:+ t +:+ post.

(** [s.startsWith(p)] *)
Fixpoint startsWith (s p : string) : bool :=
  match p, s with
  | EmptyString, _ => true
  | String b p', String a s' => Ascii.eqb a b && startsWith s' p'
  | String _ _, EmptyString => false
  end.

(** *** [String.prototype.trim]

    The characters stripped are ECMAScript's WhiteSpace and LineTerminator:
    TAB, LF, VT, FF, CR, SP, U+00A0, U+1680, U+2000..U+200A, U+2028,
    U+2029, U+202F, U+205F, U+3000 and U+FEFF. *)

Definition ws1 (a : ascii) : bool :=
  let n := code a in
  ((9 <=? n) && (n <=? 13) || (n =? 32))%N.

Definition ws2 (a b : ascii) : bool :=
  ((code a =? 194) && (code b =? 160))%N.

Definition ws3 (a b c : ascii) : bool :=
  let x := code a in let y := code b in let z := code c in
  ((x =? 225) && (y =? 154) && (z =? 128)
   || (x =? 226) && (y =? 128)
      && ((128 <=? z) && (z <=? 138) || (z =? 168) || (z =? 169) || (z =? 175))
   || (x =? 226) && (y =? 129) && (z =? 159)
   || (x =? 227) && (y =? 128) && (z =? 128)
   || (x =? 239) && (y =? 187) && (z =? 191))%N.

Fixpoint trimStart (s : string) : string :=
  match s with
  | String a s1 =>
      if ws1 a then trimStart s1 else
      match s1 with
      | String b s2 =>
          if ws2 a b then trimStart s2 else
          match s2 with
          | String c s3 => if ws3 a b c then trimStart s3 else s
          | EmptyString => s
          end
      | EmptyString => s
      end
  | EmptyString => s
  end.

Definition isEmpty (s : string) : bool :=
  match s with EmptyString => true | String _ _ => false end.

(** The string is cut at the first position from which only white space
    follows. *)
Fixpoint trimEnd (s : string) : string :=
  match s with
  | EmptyString => EmptyString
  | String a s' => if isEmpty (trimStart s) then EmptyString else String a (trimEnd s')
  end.

Definition trim (s : string) : string := trimEnd (trimStart s).

(** A string made of white-space characters only, read off the character
    table rather than off [trim]. *)
Inductive whitespaceOnly : string → Prop :=
  | wso_nil : whitespaceOnly ""
  | wso_1 a s : ws1 a = true → whitespaceOnly s → whitespaceOnly (String a s)
  | wso_2 a b s :
      ws2 a b = true → whitespaceOnly s → whitespaceOnly (String a (String b s))
  | wso_3 a b c s :
      ws3 a b c = true → whitespaceOnly s →
      whitespaceOnly (String a (String b (String c s))).

End JsString.
Import JsString.

(** ** Values and the few language operations the component uses *)

Module Js.

(** A value as [JSON.parse] can produce it, plus [undefined].  A Number is
    carried as the string [Number.prototype.toString] gives for it, which
    determines it up to the sign of zero; an Object as the finite map of
    its own properties ([JSON.parse] creates data properties only, none of
    them callable). *)
#[warnings="-register-all"] Inductive value :=
  | VUndefined
  | VNull
  | VBool (b : bool)
  | VNum (repr : string)
  | VStr (s : string)
  | VArr (l : list value)
  | VObj (m : gmap string value).

Inductive Exception := TypeError | SyntaxError | InvalidStateError.

(** Normal or abrupt completion of an evaluation. *)
Inductive Completion (A : Type) :=
  | Normal (a : A)
  | Throw (e : Exception).
Arguments Normal {A} a.
Arguments Throw {A} e.

#[global] Instance Completion_ret : MRet Completion := @Normal.
#[global] Instance Completion_bind : MBind Completion := λ A B f c,
  match c with Normal a => f a | Throw e => Throw e end.

(** ToBoolean. *)
Definition truthy (v : value) : bool :=
  match v with
  | VUndefined | VNull => false
  | VBool b => b
  | VNum r => negb (bool_decide (r = "0")) && negb (bool_decide (r = "NaN"))
  | VStr s => negb (isEmpty s)
  | VArr _ | VObj _ => true
  end.

(** [a || b] on already evaluated operands (both operands of the one use
    below are free of effects). *)
Definition or (a b : value) : value := if truthy a then a else b.

(** [v.k] for a property name [k] that no built-in prototype defines
    ([response], [error] and [suggestions] are the names read):
    [undefined] and [null] have no properties, an Object answers with its
    own property, everything else with [undefined]. *)
Definition Get (v : value) (k : string) : Completion value :=
  match v with
  | VUndefined | VNull => Throw TypeError
  | VObj m => Normal (default VUndefined (m !! k))
  | _ => Normal VUndefined
  end.

(** ToString, as a template literal applies it.  An Array is joined with
    commas, [null] and [undefined] elements giving the empty string; an
    Object gives ["[object Object]"] through [Object.prototype.toString]
    unless an own [toString] property, which cannot be callable, shadows
    it, in which case OrdinaryToPrimitive finds no primitive and throws. *)
Fixpoint ToString (v : value) : Completion string :=
  match v with
  | VUndefined => Normal "undefined"
  | VNull => Normal "null"
  | VBool true => Normal "true"
  | VBool false => Normal "false"
  | VNum r => Normal r
  | VStr s => Normal s
  | VArr l =>
      (fix join (l : list value) : Completion string :=
         match l with
         | [] => Normal ""
         | x :: xs =>
             s ← match x with
                 | VUndefined | VNull => Normal ""
                 | _ => ToString x
                 end;
             match xs with
             | [] => Normal s
             | _ :: _ => r ← join xs; Normal (s +:+ "," +:+ r)
             end
         end) l
  | VObj m =>
      match m !! "toString" with
      | Some _ => Throw TypeError
      | None => Normal "[object Object]"
      end
  end.

(** The values on which [ToString] does not throw: everything but an
    Object with an own [toString] property and an Array that holds, at any
    depth, such an Object. *)
Fixpoint convertible (v : value) : bool :=
  match v with
  | VObj m => bool_decide (m !! "toString" = None)
  | VArr l =>
      (fix all (l : list value) : bool :=
         match l with
         | [] => true
         | x :: xs => convertible x && all xs
         end) l
  | _ => true
  end.

End Js.
Import Js.

(** ** The component state *)

Module App.

(** [new Date()]: milliseconds since the epoch, read from the
    environment at each call. *)
Definition Time := Z.

Inductive Role := user | bot.

Record Message := mkMessage {
  type : Role;
  text : value;
  timestamp : Time
}.

Record State := mkState {
  messages : list Message;
  input : string;
  isLoading : bool;
  suggestions : value;
  isListening : bool
}.

(** The [useState] setters.  [setMessages] is only ever called with an
    updater function, which React applies to the state current at that
    moment. *)
Definition setMessages (f : list Message → list Message) (st : State) : State :=
  mkState (f (messages st)) (input st) (isLoading st) (suggestions st) (isListening st).
Definition setInput (v : string) (st : State) : State :=
  mkState (messages st) v (isLoading st) (suggestions st) (isListening st).
Definition setIsLoading (b : bool) (st : State) : State :=
  mkState (messages st) (input st) b (suggestions st) (isListening st).
Definition setSuggestions (v : value) (st : State) : State :=
  mkState (messages st) (input st) (isLoading st) v (isListening st).
Definition setIsListening (b : bool) (st : State) : State :=
  mkState (messages st) (input st) (isLoading st) (suggestions st) b.

Definition greetingText : string :=
  "👋 Hi there! I'm **OneIT**, your placement companion! 🎓" +:+ LF +:+ LF +:+
  "I'm here to help you with:" +:+ LF +:+
  "• Company interview processes" +:+ LF +:+
  "• Eligibility criteria" +:+ LF +:+
  "• Package details" +:+ LF +:+
  "• Interview tips & experiences" +:+ LF +:+ LF +:+
  "What would you like to know about placements today?".

Definition greeting (t0 : Time) : Message := mkMessage bot (VStr greetingText) t0.

(** The state of the first render. *)
Definition initial (t0 : Time) : State :=
  mkState [greeting t0] "" false (VArr []) false.

(** *** Requests and their outcomes *)

Record Request := mkRequest {
  url : string;
  method : string;
  (** the value handed to [JSON.stringify], when there is a body *)
  body : option value
}.

(** How a [fetch] followed by [response.json()] can settle: [fetch]
    rejects, or a response with a status arrives whose body either parses
    to a value or makes [json()] reject. *)
Inductive FetchOutcome :=
  | NetworkError
  | Response (status : Z) (json : option value).

(** [response.ok] *)
Definition ok (status : Z) : bool := ((200 <=? status) && (status <=? 299))%Z.

(** What a suspended asynchronous operation does to the state once its
    request has settled. *)
Definition Continuation : Type := FetchOutcome → Time → State → State.

Inductive Effect :=
  | Fetch (req : Request) (k : Continuation)
  | PreventDefault
  | Alert (msg : string)
  | RecognitionStart
  | RecognitionStop.

(** *** [sendMessage] *)

Definition chatRequest (messageText : string) : Request :=
  mkRequest "http://localhost:5000/api/chat" "POST"
    (Some (VObj {[ "message" := VStr messageText ]})).

Definition connectFailureText : string :=
  "⚠️ Failed to connect to the server. Please make sure the backend is running.".

(** The body of the [try] block from the first [await] on: the settled
    request either yields [botMessage] or throws. *)
Definition tryBlock (o : FetchOutcome) (now : Time) : Completion Message :=
  match o with
  | NetworkError => Throw TypeError
  | Response status json =>
      data ← match json with Some d => Normal d | None => Throw SyntaxError end;
      t ← (if ok status then Get data "response"
           else e ← Get data "error";
                s ← ToString (or e (VStr "Something went wrong"));
                Normal (VStr ("⚠️ Error: " +:+ s)));
      Normal (mkMessage bot t now)
  end.

(** The rest of [sendMessage] after the request has settled; it closes
    over [messageText]. *)
Definition sendMessage_resume (messageText : string) : Continuation :=
  λ o now st,
    let st1 :=
      match tryBlock o now with
      | Normal botMessage => setMessages (λ prev, prev ++ [botMessage]) st
      | Throw _ =>
          let errorMessage := mkMessage bot (VStr connectFailureText) now in
          setMessages (λ prev, prev ++ [errorMessage]) st
      end in
    setIsLoading false st1.

(** The bot turn a settled request leaves behind, read off
    [sendMessage_resume]. *)
Definition botTurn (o : FetchOutcome) (now : Time) : Message :=
  match tryBlock o now with
  | Normal botMessage => botMessage
  | Throw _ => mkMessage bot (VStr connectFailureText) now
  end.

(** [sendMessage(messageText = input)] up to its first [await].  An
    argument that is not a string has no callable [trim], so the call
    throws before any state is touched. *)
Definition sendMessage (messageText : value) (now : Time) (st : State)
  : Completion (State * list Effect) :=
  s ← match messageText with
      | VUndefined => Normal (input st)
      | VStr s => Normal s
      | _ => Throw TypeError
      end;
  if isEmpty (trim s) then Normal (st, [])
  else
    let userMessage := mkMessage user (VStr s) now in
    let st1 := setMessages (λ prev, prev ++ [userMessage]) st in
    let st2 := setInput "" st1 in
    let st3 := setIsLoading true st2 in
    Normal (st3, [Fetch (chatRequest s) (sendMessage_resume s)]).

(** *** [handleKeyPress] *)

Record KeyboardEvent := mkKeyboardEvent {
  key : string;
  shiftKey : bool;
  ctrlKey : bool;
  altKey : bool;
  metaKey : bool
}.

(** An [async] function called without [await]: a rejection stays in the
    discarded promise, the caller carries on with the state as it is. *)
Definition fireAndForget (c : Completion (State * list Effect)) (st : State)
  : State * list Effect :=
  match c with Normal r => r | Throw _ => (st, []) end.

Definition handleKeyPress (e : KeyboardEvent) (now : Time) (st : State)
  : State * list Effect :=
  if bool_decide (key e = "Enter") && negb (shiftKey e) then
    let '(st', effs) := fireAndForget (sendMessage VUndefined now st) st in
    (st', PreventDefault :: effs)
  else (st, []).

(** *** Suggestions and speech *)

(** The promise chain of the suggestions effect: the status is not looked
    at, and any rejection ends in [console.error]. *)
Definition onSuggestions : Continuation :=
  λ o _ st,
    match o with
    | Response _ (Some data) =>
        match Get data "suggestions" with
        | Normal v => setSuggestions (or v (VArr [])) st
        | Throw _ => st
        end
    | _ => st
    end.

Definition suggestionsRequest : Request :=
  mkRequest "http://localhost:5000/api/suggestions" "GET" None.

(** The effect that runs once after the first render. *)
Definition mountEffects : list Effect := [Fetch suggestionsRequest onSuggestions].

(** [supported] tells whether [recognitionRef.current] was set, [started]
    whether the recognition object is between a [start()] and its [end]
    event.  In that interval [start()] throws an [InvalidStateError], so
    the setter after it is not reached; [stop()] never throws. *)
Definition toggleVoiceInput (supported started : bool) (st : State)
  : Completion (State * list Effect) :=
  if negb supported then
    Normal (st, [Alert "Speech recognition not supported in this browser."])
  else if isListening st then Normal (setIsListening false st, [RecognitionStop])
  else if started then Throw InvalidStateError
  else Normal (setIsListening true st, [RecognitionStart]).

Definition onstart (st : State) : State := setIsListening true st.
Definition onend (st : State) : State := setIsListening false st.
Definition onresult (transcript : string) (now : Time) (st : State)
  : State * list Effect :=
  let st1 := setInput transcript st in
  fireAndForget (sendMessage (VStr transcript) now st1) st1.
Definition onerror (st : State) : State * list Effect :=
  (setIsListening false st,
   [Alert "🎤 Voice recognition failed. Please try again."]).

End App.
Import App.

(** ** The view *)

Module View.

Definition star : ascii := "*"%char.

Definition startsWithStars (s : string) : bool :=
  match s with
  | String a (String b _) => Ascii.eqb a star && Ascii.eqb b star
  | _ => false
  end.

(** The characters the regular-expression dot refuses: LF, CR, U+2028 and
    U+2029. *)
Definition startsWithLineTerminator (s : string) : bool :=
  match s with
  | String a s1 =>
      (code a =? 10)%N || (code a =? 13)%N ||
      match s1 with
      | String b (String c _) =>
          (code a =? 226)%N && (code b =? 128)%N
          && ((code c =? 168)%N || (code c =? 169)%N)
      | _ => false
      end
  | EmptyString => false
  end.

(** [(.*?)\*\*] matched at the head of [s]: the shortest run of dot
    characters that is followed by two asterisks, with the number of bytes
    the run and the asterisks take. *)
Fixpoint lazyGroup (s : string) : option (string * nat) :=
  match s with
  | EmptyString => None
  | String a s' =>
      if startsWithStars s then Some ("", 2)
      else if startsWithLineTerminator s then None
      else match lazyGroup s' with
           | Some (g, n) => Some (String a g, S n)
           | None => None
           end
  end.

(** [/\*\*(.*?)\*\*/] matched at the head of [s]: the captured group and
    the length of the whole match. *)
Definition matchAt (s : string) : option (string * nat) :=
  match s with
  | String a (String b r) =>
      if Ascii.eqb a star && Ascii.eqb b star then
        match lazyGroup r with
        | Some (g, n) => Some (g, 2 + n)
        | None => None
        end
      else None
  | _ => None
  end.

(** [s.replace(/\*\*(.*?)\*\*/g, '<strong>$1</strong>')]: the scan tries a
    match at each position from the left; after a match it resumes behind
    it, [skip] counting the bytes of the match still to pass over. *)
Fixpoint replaceFrom (skip : nat) (s : string) : string :=
  match s with
  | EmptyString => EmptyString
  | String a s' =>
      match skip with
      | S k => replaceFrom k s'
      | O =>
          match matchAt s with
          | Some (g, n) => "<strong>" +:+ g +:+ "</strong>" +:+ replaceFrom (pred n) s'
          | None => String a (replaceFrom 0 s')
          end
      end
  end.

Definition replaceBold (s : string) : string := replaceFrom 0 s.

(** [s.replace(/\n/g, '<br/>')] *)
Fixpoint nl2br (s : string) : string :=
  match s with
  | EmptyString => EmptyString
  | String a s' =>
      if (code a =? 10)%N then "<br/>" +:+ nl2br s' else String a (nl2br s')
  end.

(** Scans used to state what the two replacements do. *)
Fixpoint hasPair (s : string) : bool :=
  match s with
  | EmptyString => false
  | String a s' => startsWithStars s || hasPair s'
  end.

Fixpoint hasStar (s : string) : bool :=
  match s with
  | EmptyString => false
  | String a s' => Ascii.eqb a star || hasStar s'
  end.

Fixpoint hasLineFeed (s : string) : bool :=
  match s with
  | EmptyString => false
  | String a s' => (code a =? 10)%N || hasLineFeed s'
  end.

Fixpoint hasLineTerminator (s : string) : bool :=
  match s with
  | EmptyString => false
  | String a s' => startsWithLineTerminator s || hasLineTerminator s'
  end.

(** What [formatMessage] returns: [null], or a [span] whose inner HTML is
    set to the given markup. *)
Inductive Rendered :=
  | RNull
  | RSpan (html : string).

(** A truthy [text] that is not a string has no callable [replace]. *)
Definition formatMessage (text : value) : Completion Rendered :=
  if negb (truthy text) then Normal RNull
  else match text with
       | VStr s => Normal (RSpan (nl2br (replaceBold s)))
       | _ => Throw TypeError
       end.

(** The suggestions the chip buttons are built from, [None] when none is
    built.  The panel is guarded by
    [messages.length === 1 && suggestions.length > 0] and built by
    [suggestions.slice(0, 4).map(...)]; only an Array has both [slice] and
    [map], so for any other value the guard fails or the expression throws,
    and no button is built either way.  [panelExpression] below keeps the
    two apart, and [validChild] tells which suggestions React accepts as
    the label of a button. *)
Definition suggestionsPanel (st : State) : option (list value) :=
  match suggestions st with
  | VArr l =>
      if bool_decide (length (messages st) = 1) && bool_decide (0 < length l)
      then Some (take 4 l)
      else None
  | _ => None
  end.

(** [Number(r) > 0] for a Number carried as its [toString] image. *)
Definition numberPositive (r : string) : bool :=
  negb (bool_decide (r = "0")) && negb (bool_decide (r = "NaN"))
  && negb (startsWith r "-").

(** [v > 0].  The operand is brought to a primitive with the hint Number
    and then to a Number.  For a string this is the numeric-string grammar
    of the host, taken here as the parameter [positive]; an Array has
    [valueOf] return itself and goes through [toString]; an Object ends at
    ["[object Object]"], which is no number, unless an own [toString]
    property makes the conversion throw. *)
Definition greaterThanZero (positive : string → bool) (v : value)
  : Completion bool :=
  match v with
  | VUndefined | VNull => Normal false
  | VBool b => Normal b
  | VNum r => Normal (numberPositive r)
  | VStr s => Normal (positive s)
  | VArr _ => s ← ToString v; Normal (positive s)
  | VObj m =>
      match m !! "toString" with
      | Some _ => Throw TypeError
      | None => Normal false
      end
  end.

(** The expression
    [messages.length === 1 && suggestions.length > 0 && (... slice ... map ...)]:
    [Normal None] when it is [false], [Normal (Some l)] when buttons are
    built for the suggestions [l], [Throw] when evaluating it throws.
    [undefined] and [null] have no [length]; a Boolean or a Number has
    [length] undefined; a string has [slice] but no [map]; an Object has
    the [length] it was given and neither. *)
Definition panelExpression (positive : string → bool) (st : State)
  : Completion (option (list value)) :=
  if negb (bool_decide (length (messages st) = 1)) then Normal None
  else
    match suggestions st with
    | VUndefined | VNull => Throw TypeError
    | VBool _ | VNum _ => Normal None
    | VStr s => if isEmpty s then Normal None else Throw TypeError
    | VArr l =>
        if bool_decide (0 < length l) then Normal (Some (take 4 l))
        else Normal None
    | VObj m =>
        match m !! "length" with
        | None => Normal None
        | Some v =>
            match greaterThanZero positive v with
            | Normal true => Throw TypeError
            | Normal false => Normal None
            | Throw e => Throw e
            end
        end
    end.

(** What React accepts as a child: text for a string or a Number, nothing
    for [null], [undefined] and Booleans, the children of an Array one by
    one; a plain Object is refused with an error. *)
Fixpoint validChild (v : value) : bool :=
  match v with
  | VObj _ => false
  | VArr l =>
      (fix all (l : list value) : bool :=
         match l with
         | [] => true
         | x :: xs => validChild x && all xs
         end) l
  | _ => true
  end.

(** [disabled] of the textarea and of the send button. *)
Definition inputDisabled (st : State) : bool := isLoading st.
Definition sendDisabled (st : State) : bool :=
  isEmpty (trim (input st)) || isLoading st.

End View.
Import View.

(** ** The event loop

  The page reacts to one event at a time.  Requests in flight are kept
  with the continuation that awaits them; a disabled control delivers no
  event. *)

Module Loop.

Record System := mkSystem {
  app : State;
  inflight : list Continuation;
  speechSupported : bool;
  (** the recognition object has been started and has not ended yet *)
  recognizing : bool;
  (** the requests handed to [fetch] so far, oldest first *)
  issued : list Request
}.

Inductive Event :=
  | Change (v : string)
  | KeyPress (e : KeyboardEvent)
  | ClickSend
  | ClickSuggestion (i : nat)
  | ClickVoice
  | SpeechStart
  | SpeechEnd
  | SpeechResult (transcript : string)
  | SpeechError
  | Settle (i : nat) (o : FetchOutcome).

Fixpoint continuations (effs : list Effect) : list Continuation :=
  match effs with
  | [] => []
  | Fetch _ k :: effs' => k :: continuations effs'
  | _ :: effs' => continuations effs'
  end.

Fixpoint requests (effs : list Effect) : list Request :=
  match effs with
  | [] => []
  | Fetch req _ :: effs' => req :: requests effs'
  | _ :: effs' => requests effs'
  end.

Fixpoint startsRecognition (effs : list Effect) : bool :=
  match effs with
  | [] => false
  | RecognitionStart :: _ => true
  | _ :: effs' => startsRecognition effs'
  end.

Definition dispatch (sys : System) (r : State * list Effect) : System :=
  mkSystem (fst r) (inflight sys ++ continuations (snd r)) (speechSupported sys)
    (recognizing sys || startsRecognition (snd r))
    (issued sys ++ requests (snd r)).

(** The [end] event: the recognition object can be started again. *)
Definition ended (sys : System) : System :=
  mkSystem (app sys) (inflight sys) (speechSupported sys) false (issued sys).

Definition step (ev : Event) (now : Time) (sys : System) : System :=
  let st := app sys in
  match ev with
  | Change v =>
      if inputDisabled st then sys else dispatch sys (setInput v st, [])
  | KeyPress e =>
      if inputDisabled st then sys else dispatch sys (handleKeyPress e now st)
  | ClickSend =>
      if sendDisabled st then sys
      else dispatch sys (fireAndForget (sendMessage VUndefined now st) st)
  | ClickSuggestion i =>
      match suggestionsPanel st with
      | Some chips =>
          match chips !! i with
          | Some suggestion =>
              dispatch sys (fireAndForget (sendMessage suggestion now st) st)
          | None => sys
          end
      | None => sys
      end
  | ClickVoice =>
      match toggleVoiceInput (speechSupported sys) (recognizing sys) st with
      | Normal r => dispatch sys r
      | Throw _ => sys
      end
  | SpeechStart =>
      if speechSupported sys then dispatch sys (onstart st, []) else sys
  | SpeechEnd =>
      if speechSupported sys then ended (dispatch sys (onend st, [])) else sys
  | SpeechResult transcript =>
      if speechSupported sys then dispatch sys (onresult transcript now st) else sys
  | SpeechError =>
      if speechSupported sys then dispatch sys (onerror st) else sys
  | Settle i o =>
      match inflight sys !! i with
      | Some k =>
          mkSystem (k o now st) (delete i (inflight sys)) (speechSupported sys)
            (recognizing sys) (issued sys)
      | None => sys
      end
  end.

(** The page after mounting: the seeded conversation, and the suggestions
    request in flight. *)
Definition boot (t0 : Time) (supported : bool) : System :=
  mkSystem (initial t0) (continuations mountEffects) supported false
    (requests mountEffects).

Fixpoint run (evs : list (Event * Time)) (sys : System) : System :=
  match evs with
  | [] => sys
  | (ev, now) :: evs' => run evs' (step ev now sys)
  end.

(** A continuation that can only add turns at the end of the conversation,
    and a handler result that has only done so and leaves only such
    continuations behind. *)
Definition appendOnly (k : Continuation) : Prop :=
  ∀ o now st, messages st `prefix_of` messages (k o now st).

Definition grows (st : State) (r : State * list Effect) : Prop :=
  messages st `prefix_of` messages (fst r)
  ∧ Forall appendOnly (continuations (snd r)).

End Loop.
Import Loop.

(** ** The message list on the page *)

Module Page.

(** One entry of [messages.map(...)]: the class of the row, the avatar on
    the bot's side, the bubble [formatMessage] returns, the avatar on the
    user's side.  The time under the bubble is the locale's rendering of
    [timestamp] and is left out. *)
Record MessageView := mkMessageView {
  className : string;
  botAvatar : bool;
  messageText : Rendered;
  userAvatar : bool
}.

Definition roleName (r : Role) : string :=
  match r with user => "user" | bot => "bot" end.

Definition isRole (r : Role) (m : Message) : bool :=
  match r, type m with
  | user, user | bot, bot => true
  | _, _ => false
  end.

Definition renderMessage (m : Message) : Completion MessageView :=
  b ← formatMessage (text m);
  Normal (mkMessageView ("message " +:+ roleName (type m)) (isRole bot m) b
            (isRole user m)).

(** The rows in order; the render throws when one of them does. *)
Fixpoint renderMessages (msgs : list Message) : Completion (list MessageView) :=
  match msgs with
  | [] => Normal []
  | m :: msgs' =>
      v ← renderMessage m;
      vs ← renderMessages msgs';
      Normal (v :: vs)
  end.

(** The row of three dots shown under the conversation. *)
Definition typingIndicator (st : State) : bool := isLoading st.

(** What the component returns: the rows, the typing indicator, the
    suggestion buttons if any, the voice button, the textarea and the send
    button. *)
Record PageTree := mkPageTree {
  rows : list MessageView;
  typing : bool;
  chips : option (list value);
  voiceListening : bool;
  draft : string;
  textareaDisabled : bool;
  sendActive : bool;
  sendButtonDisabled : bool
}.

(** The [return] of [App], its children evaluated in the order written;
    nothing in it catches what one of them throws. *)
Definition renderPage (positive : string → bool) (st : State)
  : Completion PageTree :=
  rs ← renderMessages (messages st);
  panel ← panelExpression positive st;
  Normal (mkPageTree rs (typingIndicator st) panel (isListening st) (input st)
            (inputDisabled st) (negb (isEmpty (trim (input st))))
            (sendDisabled st)).

(** React can put the tree on the page: the only children that come from
    data are the labels of the suggestion buttons. *)
Definition mountable (tree : PageTree) : bool :=
  match chips tree with
  | Some l => forallb validChild l
  | None => true
  end.

(** The page is shown: the component returned a tree and React mounted
    it.  There is no error boundary, so otherwise the page is gone. *)
Definition shown (positive : string → bool) (st : State) : bool :=
  match renderPage positive st with
  | Normal tree => mountable tree
  | Throw _ => false
  end.

End Page.
Import Page.

(** ** Book-keeping for the requests in flight *)

Module Ledger.

(** Where a continuation in flight comes from: the effect run at mount, or
    a call of [sendMessage] with the given text. *)
Inductive Origin :=
  | FromMount
  | FromSend (messageText : string).

Definition continuationOf (g : Origin) : Continuation :=
  match g with
  | FromMount => onSuggestions
  | FromSend s => sendMessage_resume s
  end.

Fixpoint pendingSends (tags : list Origin) : nat :=
  match tags with
  | [] => 0
  | FromSend _ :: tags' => S (pendingSends tags')
  | FromMount :: tags' => pendingSends tags'
  end.

Fixpoint countRole (r : Role) (msgs : list Message) : nat :=
  match msgs with
  | [] => 0
  | m :: msgs' => (if isRole r m then 1 else 0) + countRole r msgs'
  end.

(** A user turn as [sendMessage] makes them: its text is a string that is
    not blank. *)
Definition userTurnOk (m : Message) : Prop :=
  type m = user → ∃ s, text m = VStr s ∧ isEmpty (trim s) = false.

(** The state a call of [sendMessage] with a text that is not blank leaves. *)
Definition sent (s : string) (now : Time) (st : State) : State :=
  setIsLoading true
    (setInput "" (setMessages (λ prev, prev ++ [mkMessage user (VStr s) now]) st)).

(** The three things an event can do: nothing to the conversation, the
    busy flag, the suggestions and the requests in flight; send a message;
    settle a request. *)
Definition quiet (sys sys' : System) : Prop :=
  inflight sys' = inflight sys
  ∧ messages (app sys') = messages (app sys)
  ∧ isLoading (app sys') = isLoading (app sys)
  ∧ suggestions (app sys') = suggestions (app sys)
  ∧ (isListening (app sys') = isListening (app sys) ∨ speechSupported sys = true).

Definition sends (now : Time) (sys sys' : System) : Prop :=
  ∃ s st0,
    isEmpty (trim s) = false
    ∧ messages st0 = messages (app sys)
    ∧ suggestions st0 = suggestions (app sys)
    ∧ isListening st0 = isListening (app sys)
    ∧ app sys' = sent s now st0
    ∧ inflight sys' = inflight sys ++ [sendMessage_resume s].

Definition settles (ev : Event) (now : Time) (sys sys' : System) : Prop :=
  ∃ i k o,
    ev = Settle i o
    ∧ inflight sys !! i = Some k
    ∧ app sys' = k o now (app sys)
    ∧ inflight sys' = delete i (inflight sys).

(** What holds of the page after any sequence of events, [tags] naming the
    origin of each continuation in flight. *)
Record Invariant (sys : System) (tags : list Origin) : Prop := mkInvariant {
  inv_inflight : inflight sys = continuationOf <$> tags;
  inv_turns :
    countRole user (messages (app sys)) + 1
    = countRole bot (messages (app sys)) + pendingSends tags;
  inv_busy : isLoading (app sys) = true → 0 < pendingSends tags;
  inv_user : Forall userTurnOk (messages (app sys));
  inv_listening : speechSupported sys = false → isListening (app sys) = false;
  inv_mount : ∀ i, tags !! i = Some FromMount → i = 0
}.

End Ledger.
Import Ledger.

(** * Properties *)

(** ** Strings *)

Section StringFacts.

Lemma append_cons a s t : String a s +:+ t = String a (s +:+ t).
Proof. reflexivity. Qed.

Lemma append_nil_r s : s +:+ "" = s.
Proof. induction s as [|a s IH]; [done|]. by rewrite append_cons, IH. Qed.

Lemma append_assoc s t u : (s +:+ t) +:+ u = s +:+ t +:+ u.
Proof. induction s as [|a s IH]; [done|]. by rewrite !append_cons, IH. Qed.

Lemma includes_infix pre t post : includes (pre +:+ t +:+ post) t.
Proof. by exists pre, post. Qed.

Lemma isEmpty_true s : isEmpty s = true ↔ s = "".
Proof. by destruct s. Qed.

Lemma ws2_not_ws1 a b : ws2 a b = true → ws1 a = false.
Proof.
  unfold ws2, ws1. generalize (code a) (code b). intros x y.
  rewrite andb_true_iff, !N.eqb_eq. intros [-> _]. reflexivity.
Qed.

Lemma ws3_not_ws1 a b c : ws3 a b c = true → ws1 a = false.
Proof.
  unfold ws3, ws1. generalize (code a) (code b) (code c). intros x y z H.
  apply not_true_is_false. intros H1. revert H H1.
  rewrite !orb_true_iff, !andb_true_iff, !orb_true_iff, !andb_true_iff,
    !N.eqb_eq, !N.leb_le. lia.
Qed.

Lemma ws3_not_ws2 a b c : ws3 a b c = true → ws2 a b = false.
Proof.
  unfold ws3, ws2. generalize (code a) (code b) (code c). intros x y z H.
  apply not_true_is_false. intros H1. revert H H1.
  rewrite !orb_true_iff, !andb_true_iff, !orb_true_iff, !andb_true_iff,
    !N.eqb_eq, !N.leb_le. lia.
Qed.

(** Unfolding [trimStart] one character class at a time. *)
Lemma trimStart_ws1 a s : ws1 a = true → trimStart (String a s) = trimStart s.
Proof. intros H. simpl. by rewrite H. Qed.

Lemma trimStart_ws2 a b s :
  ws2 a b = true → trimStart (String a (String b s)) = trimStart s.
Proof. intros H. simpl. by rewrite (ws2_not_ws1 _ _ H), H. Qed.

Lemma trimStart_ws3 a b c s :
  ws3 a b c = true → trimStart (String a (String b (String c s))) = trimStart s.
Proof.
  intros H. simpl.
  by rewrite (ws3_not_ws1 _ _ _ H), (ws3_not_ws2 _ _ _ H), H.
Qed.

(** Either [trimStart] stripped a white-space character and went on, or it
    stopped at a string it returns whole and would return whole again. *)
Lemma trimStart_cases s :
  s = "" ∨
  (∃ a s1, s = String a s1 ∧ ws1 a = true ∧ trimStart s = trimStart s1) ∨
  (∃ a b s2, s = String a (String b s2) ∧ ws2 a b = true
             ∧ trimStart s = trimStart s2) ∨
  (∃ a b c s3, s = String a (String b (String c s3)) ∧ ws3 a b c = true
               ∧ trimStart s = trimStart s3) ∨
  (s ≠ "" ∧ trimStart s = s).
Proof.
  destruct s as [|a s1]; [by left|]. right.
  destruct (ws1 a) eqn:H1.
  { left. exists a, s1. by rewrite trimStart_ws1. }
  right. destruct s1 as [|b s2].
  { right. right. split; [done|]. simpl. by rewrite H1. }
  destruct (ws2 a b) eqn:H2.
  { left. exists a, b, s2. by rewrite trimStart_ws2. }
  right. destruct s2 as [|c s3].
  { right. split; [done|]. simpl. by rewrite H1, H2. }
  destruct (ws3 a b c) eqn:H3.
  { left. exists a, b, c, s3. by rewrite trimStart_ws3. }
  right. split; [done|]. simpl. by rewrite H1, H2, H3.
Qed.

Lemma string_length_ind (P : string → Prop) :
  (∀ s, (∀ t, (String.length t < String.length s)%nat → P t) → P s) →
  ∀ s, P s.
Proof.
  intros IH s. remember (String.length s) as n eqn:Hn.
  revert s Hn. induction (lt_wf n) as [n _ IHn].
  intros s ->. apply IH. intros t Ht. by apply (IHn _ Ht).
Qed.

Lemma trimStart_idem s : trimStart (trimStart s) = trimStart s.
Proof.
  induction s as [s IH] using string_length_ind.
  destruct (trimStart_cases s)
    as [->|[(a&s1&->&_&E)|[(a&b&s2&->&_&E)|[(a&b&c&s3&->&_&E)|[_ E]]]]];
    [done|rewrite E; apply IH; simpl; lia..|by rewrite !E].
Qed.

Lemma trimStart_whitespaceOnly s : trimStart s = "" ↔ whitespaceOnly s.
Proof.
  split.
  - induction s as [s IH] using string_length_ind. intros Hs.
    destruct (trimStart_cases s)
      as [->|[(a&s1&->&W&E)|[(a&b&s2&->&W&E)|[(a&b&c&s3&->&W&E)|[N E]]]]].
    + constructor.
    + apply wso_1; [done|]. apply IH; [simpl; lia|congruence].
    + apply wso_2; [done|]. apply IH; [simpl; lia|congruence].
    + apply wso_3; [done|]. apply IH; [simpl; lia|congruence].
    + congruence.
  - induction 1 as [|a s W _ IH|a b s W _ IH|a b c s W _ IH]; [done|..].
    + by rewrite trimStart_ws1.
    + by rewrite trimStart_ws2.
    + by rewrite trimStart_ws3.
Qed.

Lemma trimEnd_empty t : trimEnd t = "" ↔ trimStart t = "".
Proof.
  destruct t as [|a t']; [done|].
  change (trimEnd (String a t')) with
    (if isEmpty (trimStart (String a t')) then "" else String a (trimEnd t')).
  destruct (trimStart (String a t')) eqn:E; simpl; split; congruence.
Qed.

(** [!s.trim()] holds exactly of the strings made of white space. *)
Lemma trim_empty_whitespaceOnly s : isEmpty (trim s) = true ↔ whitespaceOnly s.
Proof.
  rewrite isEmpty_true. unfold trim.
  by rewrite trimEnd_empty, trimStart_idem, trimStart_whitespaceOnly.
Qed.

Lemma trim_nonempty_not_whitespaceOnly s :
  isEmpty (trim s) = false ↔ ¬ whitespaceOnly s.
Proof.
  rewrite <- trim_empty_whitespaceOnly. by destruct (isEmpty (trim s)).
Qed.

End StringFacts.

(** ** The model on concrete inputs *)

Section Examples.

Example trim_spaces : trim ("  a b " +:+ LF) = "a b".
Proof. reflexivity. Qed.

Example trim_unicode_space :
  trim (LS +:+ String "194" (String "160" "") +:+ PS +:+ CR) = "".
Proof. reflexivity. Qed.

Example ToString_array :
  ToString (VArr [VNum "1"; VNull; VStr "x"; VArr []; VBool true]) = Normal "1,,x,,true".
Proof. reflexivity. Qed.

Example ToString_shadowed :
  ToString (VObj {[ "toString" := VStr "x" ]}) = Throw TypeError.
Proof. reflexivity. Qed.

Example replaceBold_scan :
  replaceBold "a **b** c ***d*** **** **e"
  = "a <strong>b</strong> c <strong>*d</strong>* <strong></strong> **e".
Proof. reflexivity. Qed.

Example replaceBold_reopens :
  replaceBold ("**a" +:+ LF +:+ "b**c**") = "**a" +:+ LF +:+ "b<strong>c</strong>".
Proof. reflexivity. Qed.

Example formatMessage_empty : formatMessage (VStr "") = Normal RNull.
Proof. reflexivity. Qed.

Example formatMessage_undefined : formatMessage VUndefined = Normal RNull.
Proof. reflexivity. Qed.

Example formatMessage_number : formatMessage (VNum "42") = Throw TypeError.
Proof. reflexivity. Qed.

Example formatMessage_greeting :
  formatMessage (VStr greetingText)
  = Normal (RSpan
      ("👋 Hi there! I'm <strong>OneIT</strong>, your placement companion! 🎓<br/><br/>"
       +:+ "I'm here to help you with:<br/>• Company interview processes<br/>"
       +:+ "• Eligibility criteria<br/>• Package details<br/>"
       +:+ "• Interview tips & experiences<br/><br/>"
       +:+ "What would you like to know about placements today?")).
Proof. reflexivity. Qed.

Example error_field_array :
  botTurn (Response 404 (Some (VObj {[ "error" := VArr [VStr "a"; VStr "b"] ]}))) 3%Z
  = mkMessage bot (VStr "⚠️ Error: a,b") 3%Z.
Proof. reflexivity. Qed.

Example error_field_zero :
  botTurn (Response 500 (Some (VObj {[ "error" := VNum "0" ]}))) 3%Z
  = mkMessage bot (VStr "⚠️ Error: Something went wrong") 3%Z.
Proof. reflexivity. Qed.

Example sendMessage_number : sendMessage (VNum "7") 3%Z (initial 0%Z) = Throw TypeError.
Proof. reflexivity. Qed.

Example panel_hidden_after_first_turn :
  suggestionsPanel
    (setMessages (λ prev, prev ++ [mkMessage user (VStr "hi") 1%Z])
       (setSuggestions (VArr [VStr "a"]) (initial 0%Z)))
  = None.
Proof. reflexivity. Qed.

(** A round trip through the event loop: type a draft, press Enter, let the
    chat request (second in flight, after the suggestions request) settle. *)
Example loop_round_trip :
  messages (app (run
    [(Change "hi", 1%Z);
     (KeyPress (mkKeyboardEvent "Enter" false false false false), 2%Z);
     (Settle 1 (Response 200 (Some (VObj {[ "response" := VStr "hello" ]}))), 3%Z)]
    (boot 0%Z true)))
  = [greeting 0%Z; mkMessage user (VStr "hi") 2%Z; mkMessage bot (VStr "hello") 3%Z].
Proof. reflexivity. Qed.

End Examples.

(** ** [sendMessage] *)

Section SendMessage.

Implicit Types (s messageText : string) (now : Time) (st : State)
  (o : FetchOutcome).

Lemma resume_messages messageText o now st :
  messages (sendMessage_resume messageText o now st)
  = messages st ++ [botTurn o now].
Proof.
  unfold sendMessage_resume, botTurn. by destruct (tryBlock o now).
Qed.

Lemma resume_isLoading messageText o now st :
  isLoading (sendMessage_resume messageText o now st) = false.
Proof. reflexivity. Qed.

Lemma resume_input messageText o now st :
  input (sendMessage_resume messageText o now st) = input st.
Proof. unfold sendMessage_resume. by destruct (tryBlock o now). Qed.

Lemma tryBlock_bot o now b :
  tryBlock o now = Normal b → type b = bot ∧ timestamp b = now.
Proof.
  destruct o as [|status [data|]]; simpl; [done| |done].
  destruct (ok status).
  - destruct (Get data "response"); simpl; [|done]. by intros [= <-].
  - destruct (Get data "error") as [e|]; simpl; [|done].
    destruct (ToString _); simpl; [|done]. by intros [= <-].
Qed.

Lemma botTurn_bot o now : type (botTurn o now) = bot ∧ timestamp (botTurn o now) = now.
Proof.
  unfold botTurn. destruct (tryBlock o now) eqn:E; [|done].
  by apply tryBlock_bot in E.
Qed.

Lemma sendMessage_default now st :
  sendMessage VUndefined now st = sendMessage (VStr (input st)) now st.
Proof. reflexivity. Qed.

Lemma sendMessage_nonblank s now st :
  isEmpty (trim s) = false →
  sendMessage (VStr s) now st
  = Normal (setIsLoading true
              (setInput ""
                 (setMessages (λ prev, prev ++ [mkMessage user (VStr s) now]) st)),
            [Fetch (chatRequest s) (sendMessage_resume s)]).
Proof. intros H. unfold sendMessage. simpl. by rewrite H. Qed.

Lemma sendMessage_blank s now st :
  isEmpty (trim s) = true → sendMessage (VStr s) now st = Normal (st, []).
Proof. intros H. unfold sendMessage. simpl. by rewrite H. Qed.

(** What the text of the bot turn is, outcome by outcome. *)
Lemma botTurn_network now :
  botTurn NetworkError now = mkMessage bot (VStr connectFailureText) now.
Proof. reflexivity. Qed.

Lemma botTurn_unparsed status now :
  botTurn (Response status None) now = mkMessage bot (VStr connectFailureText) now.
Proof. reflexivity. Qed.

Lemma botTurn_null status now :
  botTurn (Response status (Some VNull)) now
  = mkMessage bot (VStr connectFailureText) now.
Proof. unfold botTurn. simpl. by destruct (ok status). Qed.

Lemma botTurn_ok status data v now :
  ok status = true → Get data "response" = Normal v →
  botTurn (Response status (Some data)) now = mkMessage bot v now.
Proof. intros Hok Hv. unfold botTurn. simpl. by rewrite Hok, Hv. Qed.

Lemma botTurn_error status data e s now :
  ok status = false → Get data "error" = Normal e →
  ToString (or e (VStr "Something went wrong")) = Normal s →
  botTurn (Response status (Some data)) now
  = mkMessage bot (VStr ("⚠️ Error: " +:+ s)) now.
Proof.
  intros Hok He Hs. unfold botTurn. simpl. rewrite Hok, He. simpl.
  by rewrite Hs.
Qed.

End SendMessage.

(** ** The round trip of one message *)

Section RoundTrip.

Implicit Types (s messageText : string) (now : Time) (st : State)
  (o : FetchOutcome).

(** C1.  A message that is not blank after trimming makes [sendMessage]
    append exactly one user turn and issue exactly one request; whenever
    that request settles, with whatever outcome, the continuation appends
    exactly one bot turn to the conversation as it then stands.  With
    nothing in between, the conversation has grown by the user turn
    followed by the bot turn. *)
Theorem sendMessage_one_user_one_bot s now st :
  isEmpty (trim s) = false →
  ∃ st1 k,
    sendMessage (VStr s) now st = Normal (st1, [Fetch (chatRequest s) k])
    ∧ messages st1 = messages st ++ [mkMessage user (VStr s) now]
    ∧ (∀ o now' st2, ∃ t,
          messages (k o now' st2) = messages st2 ++ [mkMessage bot t now'])
    ∧ (∀ o now', ∃ t,
          messages (k o now' st1)
          = messages st ++ [mkMessage user (VStr s) now; mkMessage bot t now']).
Proof.
  intros H. eexists _, _. split; [by apply sendMessage_nonblank|].
  split; [done|].
  assert (∀ o now', ∃ t, botTurn o now' = mkMessage bot t now') as Hbot.
  { intros o now'. destruct (botTurn_bot o now') as [Hty Hts].
    destruct (botTurn o now') as [ty t ts]. simpl in *. subst. by exists t. }
  split.
  - intros o now' st2. destruct (Hbot o now') as [t Ht]. exists t.
    by rewrite resume_messages, Ht.
  - intros o now'. destruct (Hbot o now') as [t Ht]. exists t.
    rewrite resume_messages, Ht. simpl. by rewrite <- app_assoc.
Qed.

Lemma sendMessage_one_user_one_bot_witness :
  isEmpty (trim "hello") = false ∧
  ∃ st1 k,
    sendMessage (VStr "hello") 5%Z (initial 0%Z)
    = Normal (st1, [Fetch (chatRequest "hello") k])
    ∧ messages st1 = messages (initial 0%Z) ++ [mkMessage user (VStr "hello") 5%Z]
    ∧ (∀ o now' st2, ∃ t,
          messages (k o now' st2) = messages st2 ++ [mkMessage bot t now'])
    ∧ (∀ o now', ∃ t,
          messages (k o now' st1)
          = messages (initial 0%Z)
            ++ [mkMessage user (VStr "hello") 5%Z; mkMessage bot t now']).
Proof.
  split; [reflexivity|].
  apply (sendMessage_one_user_one_bot "hello" 5%Z (initial 0%Z)). reflexivity.
Defined.

(** C3.  A submitted message sets the busy flag as its request is issued,
    and the continuation clears it whatever the outcome is: a parsed
    response of any status, an unreadable body, a network error. *)
Theorem busy_flag_set_then_released s now st :
  isEmpty (trim s) = false →
  ∃ st1 req k,
    sendMessage (VStr s) now st = Normal (st1, [Fetch req k])
    ∧ isLoading st1 = true
    ∧ ∀ o now' st2, isLoading (k o now' st2) = false.
Proof.
  intros H. eexists _, _, _. split; [by apply sendMessage_nonblank|].
  split; [done|]. intros o now' st2. apply resume_isLoading.
Qed.

Lemma busy_flag_set_then_released_witness :
  isEmpty (trim "hello") = false ∧
  ∃ st1 req k,
    sendMessage (VStr "hello") 5%Z (initial 0%Z) = Normal (st1, [Fetch req k])
    ∧ isLoading st1 = true
    ∧ ∀ o now' st2, isLoading (k o now' st2) = false.
Proof.
  split; [reflexivity|].
  apply (busy_flag_set_then_released "hello" 5%Z (initial 0%Z)). reflexivity.
Defined.

(** C4.  When a response with a 2xx status carries an object whose
    [response] property is the string [X], the bot turn appended has
    exactly [X] as its text. *)
Theorem success_response_text_exact messageText status (m : gmap string value) X now st :
  ok status = true →
  m !! "response" = Some (VStr X) →
  messages (sendMessage_resume messageText (Response status (Some (VObj m))) now st)
  = messages st ++ [mkMessage bot (VStr X) now].
Proof.
  intros Hok Hm. rewrite resume_messages.
  rewrite (botTurn_ok status (VObj m) (VStr X)); [done..|].
  simpl. by rewrite Hm.
Qed.

Lemma success_response_text_exact_witness :
  ok 200 = true ∧
  ({[ "response" := VStr "X" ]} : gmap string value) !! "response" = Some (VStr "X") ∧
  messages (sendMessage_resume "hi"
              (Response 200 (Some (VObj {[ "response" := VStr "X" ]}))) 9%Z
              (initial 0%Z))
  = messages (initial 0%Z) ++ [mkMessage bot (VStr "X") 9%Z].
Proof.
  split; [reflexivity|]. split; [reflexivity|].
  apply (success_response_text_exact "hi" 200 {[ "response" := VStr "X" ]} "X");
    reflexivity.
Defined.

(** C5.  When the request fails on the network, the bot turn appended has
    the fixed connection-failure text, whatever message was submitted. *)
Theorem network_failure_fixed_text messageText now st :
  messages (sendMessage_resume messageText NetworkError now st)
  = messages st ++ [mkMessage bot (VStr connectFailureText) now].
Proof. by rewrite resume_messages, botTurn_network. Qed.

(** C6.  Submitting a string that is empty or made of white space only,
    passed as the argument or taken from the draft, changes nothing: the
    state, draft included, is returned as it was, no turn is appended and no
    request is issued. *)
Theorem blank_submission_is_noop (arg : value) s now st :
  arg = VStr s ∨ (arg = VUndefined ∧ input st = s) →
  whitespaceOnly s →
  sendMessage arg now st = Normal (st, []).
Proof.
  intros Harg H%trim_empty_whitespaceOnly.
  destruct Harg as [->|[-> <-]]; [|rewrite sendMessage_default];
    by apply sendMessage_blank.
Qed.

Lemma blank_submission_is_noop_witness :
  whitespaceOnly (" " +:+ LF) ∧
  sendMessage (VStr (" " +:+ LF)) 5%Z (initial 0%Z) = Normal (initial 0%Z, []).
Proof.
  assert (whitespaceOnly (" " +:+ LF)) as W.
  { apply wso_1; [reflexivity|]. apply wso_1; [reflexivity|]. apply wso_nil. }
  split; [exact W|].
  apply (blank_submission_is_noop (VStr (" " +:+ LF)) (" " +:+ LF) 5%Z (initial 0%Z));
    [by left|exact W].
Defined.

Lemma ToString_convertible (v : value) :
  (∃ s, ToString v = Normal s) ↔ convertible v = true.
Proof.
  revert v. fix IH 1. intros [| |[|]|r|s|l|m]; simpl; try (split; eauto; fail).
  - revert l. fix IHl 1. intros [|x xs]; [split; eauto|].
    specialize (IH x). specialize (IHl xs).
    assert ((∃ s, match x with
                  | VUndefined | VNull => Normal ""
                  | _ => ToString x
                  end = Normal s)
            ↔ convertible x = true) as Hx.
    { destruct x; simpl in *; try (split; eauto; fail); exact IH. }
    clear IH. simpl.
    destruct (match x with
              | VUndefined | VNull => Normal ""
              | _ => ToString x
              end) as [s|e] eqn:E.
    + rewrite (proj1 Hx (ex_intro _ s eq_refl)). simpl.
      destruct xs as [|y ys]; [split; eauto|].
      rewrite <- IHl.
      match goal with |- context [mbind _ ?c] => destruct c as [r|e'] end; simpl.
      * split; eauto.
      * split; intros [? ?]; discriminate.
    + split; [intros [? ?]; discriminate|].
      intros [H _]%andb_true_iff. apply Hx in H as [? ?]. discriminate.
  - destruct (m !! "toString"); simpl.
    + split; [intros [? ?]; discriminate|]. intros H. discriminate H.
    + split; eauto.
Qed.

Lemma ToString_throws (v : value) :
  convertible v = false → ∃ x, ToString v = Throw x.
Proof.
  intros H. destruct (ToString v) as [s|x] eqn:E; [|by exists x].
  assert (convertible v = true) as H' by (apply ToString_convertible; eauto).
  congruence.
Qed.

Lemma not_convertible_truthy (v : value) : convertible v = false → truthy v = true.
Proof. by destruct v. Qed.

Lemma or_truthy (e d : value) : truthy e = true → or e d = e.
Proof. unfold or. by intros ->. Qed.

Lemma or_falsy (e d : value) : truthy e = false → or e d = d.
Proof. unfold or. by intros ->. Qed.

(** C2, as amended.  On a status outside 200..299 the bot turn appended is
    always a string.  When the body parses to a value other than [null],
    it is the warning prefix followed by the body's [error] property if
    that is truthy, and by ["Something went wrong"] if it is absent or
    falsy; so a body [{error: "Y"}] gives a text containing [Y].  The
    catch-all handler, with its fixed connection-failure text, takes the
    rest: a body that does not parse or parses to [null], and an [error]
    property that cannot be converted to a string, which is one that is
    an Object with an own [toString] property or an Array holding such an
    Object. *)
Theorem server_error_text messageText status json now st :
  ok status = false →
  ∃ t,
    messages (sendMessage_resume messageText (Response status json) now st)
    = messages st ++ [mkMessage bot (VStr t) now]
    ∧ (∀ data e s,
          json = Some data → Get data "error" = Normal e →
          ToString (or e (VStr "Something went wrong")) = Normal s →
          t = "⚠️ Error: " +:+ s)
    ∧ (∀ (m : gmap string value) Y,
          json = Some (VObj m) → m !! "error" = Some (VStr Y) → includes t Y)
    ∧ (∀ (m : gmap string value),
          json = Some (VObj m) → m !! "error" = None →
          t = "⚠️ Error: Something went wrong")
    ∧ (json = None ∨ json = Some VNull → t = connectFailureText)
    ∧ (∀ data e,
          json = Some data → Get data "error" = Normal e → truthy e = false →
          t = "⚠️ Error: Something went wrong")
    ∧ (∀ data e,
          json = Some data → Get data "error" = Normal e → truthy e = true →
          convertible e = true →
          ∃ s, ToString e = Normal s ∧ t = "⚠️ Error: " +:+ s)
    ∧ (∀ data e,
          json = Some data → Get data "error" = Normal e →
          convertible e = false →
          t = connectFailureText).
Proof.
  intros Hok. rewrite resume_messages.
  destruct json as [data|].
  2:{ exists connectFailureText. rewrite botTurn_unparsed.
      repeat split; try done; intros; simplify_eq. }
  destruct (Get data "error") as [e|x] eqn:He.
  2:{ exists connectFailureText. unfold botTurn. simpl. rewrite Hok, He.
      split; [done|]. repeat split; intros; simplify_eq; try congruence.
      all: by destruct data. }
  destruct (ToString (or e (VStr "Something went wrong"))) as [s|x] eqn:Hs.
  2:{ exists connectFailureText. unfold botTurn. simpl. rewrite Hok, He. simpl.
      rewrite Hs. split; [done|].
      assert (truthy e = true) as Ht.
      { destruct (truthy e) eqn:Ht; [done|]. by rewrite (or_falsy _ _ Ht) in Hs. }
      rewrite (or_truthy _ _ Ht) in Hs.
      assert (convertible e = false) as Hc.
      { destruct (convertible e) eqn:Hc; [|done].
        apply ToString_convertible in Hc as [s Hc]. congruence. }
      split; [intros data' e' s' [= <-] He' Hs'; rewrite He in He';
              simplify_eq; rewrite (or_truthy _ _ Ht) in Hs'; congruence|].
      split; [intros m Y [= ->] Hm; simpl in He; rewrite Hm in He;
              by simplify_eq|].
      split; [intros m [= ->] Hm; simpl in He; rewrite Hm in He;
              by simplify_eq|].
      split; [done|].
      split; [intros data' e' [= <-] He' Ht'; congruence|].
      split; [intros data' e' [= <-] He' Ht' Hc'; congruence|done]. }
  exists ("⚠️ Error: " +:+ s). rewrite (botTurn_error _ _ _ _ _ Hok He Hs).
  split; [done|]. split; [|split; [|split; [|split; [|split; [|split]]]]].
  - intros data' e' s' [= <-] He' Hs'. congruence.
  - intros m Y [= ->] Hm. simpl in He. rewrite Hm in He. simplify_eq.
    unfold or in Hs. destruct Y as [|a Y]; simpl in Hs; simplify_eq.
    + by exists "⚠️ Error: Something went wrong", "".
    + exists "⚠️ Error: ", "". by rewrite append_nil_r.
  - intros m [= ->] Hm. simpl in He. rewrite Hm in He. simpl in He.
    simplify_eq. vm_compute in Hs. by simplify_eq.
  - intros [?|?]; simplify_eq.
  - intros data' e' [= <-] He' Ht. rewrite He in He'. simplify_eq.
    rewrite (or_falsy _ _ Ht) in Hs. simpl in Hs. by simplify_eq.
  - intros data' e' [= <-] He' Ht Hc. rewrite He in He'. simplify_eq.
    rewrite (or_truthy _ _ Ht) in Hs. by exists s.
  - intros data' e' [= <-] He' Hc. rewrite He in He'. simplify_eq.
    rewrite (or_truthy _ _ (not_convertible_truthy _ Hc)) in Hs.
    destruct (ToString_throws _ Hc) as [x Hx]. congruence.
Qed.

Lemma server_error_text_witness :
  ok 400 = false ∧
  ∃ t,
    messages (sendMessage_resume "hi"
                (Response 400 (Some (VObj {[ "error" := VStr "Y" ]}))) 9%Z
                (initial 0%Z))
    = messages (initial 0%Z) ++ [mkMessage bot (VStr t) 9%Z]
    ∧ includes t "Y".
Proof.
  split; [reflexivity|].
  destruct (server_error_text "hi" 400 (Some (VObj {[ "error" := VStr "Y" ]}))
              9%Z (initial 0%Z) eq_refl) as (t & Hm & _ & HY & _).
  exists t. split; [exact Hm|]. by apply (HY {[ "error" := VStr "Y" ]}).
Defined.

(** C2 as stated fails: a status-500 response whose body is not JSON gets
    the connection-failure text, which is no formatted server error, and a
    status-200 response without a [response] property gets a bot turn whose
    text is [undefined]. *)
Lemma malformed_payload_counterexample :
  ok 500 = false
  ∧ messages (sendMessage_resume "hi" (Response 500 None) 9%Z (initial 0%Z))
    = [greeting 0%Z; mkMessage bot (VStr connectFailureText) 9%Z]
  ∧ startsWith connectFailureText "⚠️ Error: " = false
  ∧ messages (sendMessage_resume "hi" (Response 200 (Some (VObj ∅))) 9%Z
                (initial 0%Z))
    = [greeting 0%Z; mkMessage bot VUndefined 9%Z].
Proof. repeat split. Qed.

End RoundTrip.

(** ** The Enter key *)

Section EnterKey.

Implicit Types (e : KeyboardEvent) (now : Time) (st : State).

(** C8, as amended.  An Enter press with Shift held does nothing, whatever
    else is held.  An Enter press without Shift (Ctrl, Alt and Meta are not
    looked at) cancels the default action and calls [sendMessage] once on
    the draft: a draft that is not blank after trimming gets exactly one
    user turn and one request, a blank one gets neither. *)
Theorem enter_submits_unless_shift e now st :
  key e = "Enter" →
  (shiftKey e = true → handleKeyPress e now st = (st, []))
  ∧ (shiftKey e = false → isEmpty (trim (input st)) = false →
     ∃ st1 k,
       handleKeyPress e now st
       = (st1, [PreventDefault; Fetch (chatRequest (input st)) k])
       ∧ messages st1 = messages st ++ [mkMessage user (VStr (input st)) now])
  ∧ (shiftKey e = false → isEmpty (trim (input st)) = true →
     handleKeyPress e now st = (st, [PreventDefault])).
Proof.
  intros Hkey. unfold handleKeyPress.
  rewrite (bool_decide_eq_true_2 _ Hkey). repeat split.
  - by intros ->.
  - intros -> Hd. simpl. rewrite sendMessage_default.
    rewrite (sendMessage_nonblank _ _ _ Hd). simpl. by eexists _, _.
  - intros -> Hd. simpl. rewrite sendMessage_default.
    by rewrite (sendMessage_blank _ _ _ Hd).
Qed.

Lemma enter_submits_unless_shift_witness :
  key (mkKeyboardEvent "Enter" false false false false) = "Enter" ∧
  ∃ st1 k,
    handleKeyPress (mkKeyboardEvent "Enter" false false false false) 7%Z
      (setInput "hi" (initial 0%Z))
    = (st1, [PreventDefault; Fetch (chatRequest "hi") k])
    ∧ messages st1 = [greeting 0%Z; mkMessage user (VStr "hi") 7%Z].
Proof.
  split; [reflexivity|].
  destruct (enter_submits_unless_shift
              (mkKeyboardEvent "Enter" false false false false) 7%Z
              (setInput "hi" (initial 0%Z)) eq_refl) as (_ & H & _).
  exact (H eq_refl eq_refl).
Defined.

(** C8 as stated fails: with Ctrl held and Shift not, Enter submits the
    draft like a bare Enter does. *)
Lemma ctrl_enter_counterexample :
  ctrlKey (mkKeyboardEvent "Enter" false true false false) = true
  ∧ messages (fst (handleKeyPress (mkKeyboardEvent "Enter" false true false false)
                     7%Z (setInput "hi" (initial 0%Z))))
    = [greeting 0%Z; mkMessage user (VStr "hi") 7%Z]
  ∧ snd (handleKeyPress (mkKeyboardEvent "Enter" false true false false)
           7%Z (setInput "hi" (initial 0%Z)))
    = [PreventDefault; Fetch (chatRequest "hi") (sendMessage_resume "hi")].
Proof. repeat split. Qed.

End EnterKey.

(** ** The suggestion chips *)

Section Suggestions.

(** C10.  Whenever the panel shows chips, the fetched suggestions are an
    array and the chips are its first four elements at most, in the order
    fetched, however many the backend sent. *)
Theorem suggestions_first_four (st : State) (chips : list value) :
  suggestionsPanel st = Some chips →
  ∃ l : list value,
    suggestions st = VArr l
    ∧ chips = take 4 l
    ∧ (length chips = length l `min` 4)%nat
    ∧ (∀ i, (i < 4)%nat → chips !! i = l !! i)
    ∧ (∀ i, (4 ≤ i)%nat → chips !! i = None).
Proof.
  unfold suggestionsPanel. destruct (suggestions st) as [| | | | |l|]; try done.
  case_match; [|done]. intros [= <-]. exists l.
  split; [done|]. split; [done|]. split; [|split].
  - rewrite length_take. lia.
  - intros i Hi. by apply lookup_take_lt.
  - intros i Hi. by apply lookup_take_ge.
Qed.

Lemma suggestions_first_four_witness :
  suggestionsPanel
    (setSuggestions
       (VArr [VStr "a"; VStr "b"; VStr "c"; VStr "d"; VStr "e"; VStr "f"])
       (initial 0%Z))
  = Some [VStr "a"; VStr "b"; VStr "c"; VStr "d"] ∧
  ∃ l' : list value,
    suggestions
      (setSuggestions
         (VArr [VStr "a"; VStr "b"; VStr "c"; VStr "d"; VStr "e"; VStr "f"])
         (initial 0%Z))
    = VArr l'
    ∧ [VStr "a"; VStr "b"; VStr "c"; VStr "d"] = take 4 l'.
Proof.
  split; [reflexivity|].
  destruct (suggestions_first_four
              (setSuggestions
                 (VArr [VStr "a"; VStr "b"; VStr "c"; VStr "d"; VStr "e"; VStr "f"])
                 (initial 0%Z))
              [VStr "a"; VStr "b"; VStr "c"; VStr "d"] eq_refl)
    as (l' & H1 & H2 & _).
  by exists l'.
Defined.

End Suggestions.

(** ** The conversation as a log *)

Section AppendOnly.

Implicit Types (now : Time) (st : State) (sys : System).

Lemma resume_appendOnly s : appendOnly (sendMessage_resume s).
Proof. intros o now st. rewrite resume_messages. by apply prefix_app_r. Qed.

Lemma onSuggestions_appendOnly : appendOnly onSuggestions.
Proof.
  intros o now st. unfold onSuggestions.
  destruct o as [|status [data|]]; [done| |done].
  by destruct (Get data "suggestions").
Qed.

Lemma grows_same st : grows st (st, []).
Proof. split; [done|constructor]. Qed.

Lemma sendMessage_grows (v : value) now st :
  grows st (fireAndForget (sendMessage v now st) st).
Proof.
  unfold sendMessage.
  assert (∀ s, grows st (fireAndForget
    (if isEmpty (trim s) then Normal (st, [])
     else Normal (setIsLoading true (setInput ""
            (setMessages (λ prev, prev ++ [mkMessage user (VStr s) now]) st)),
          [Fetch (chatRequest s) (sendMessage_resume s)])) st)) as H.
  { intros s. destruct (isEmpty (trim s)); simpl; [apply grows_same|].
    split; simpl; [by apply prefix_app_r|].
    repeat constructor. apply resume_appendOnly. }
  destruct v; simpl; try apply grows_same; apply H.
Qed.

Lemma handleKeyPress_grows e now st : grows st (handleKeyPress e now st).
Proof.
  unfold handleKeyPress. case_match; [|apply grows_same].
  destruct (sendMessage_grows VUndefined now st) as [Hm Hk].
  by destruct (fireAndForget _ _).
Qed.

Lemma toggleVoiceInput_grows supported started st r :
  toggleVoiceInput supported started st = Normal r → grows st r.
Proof.
  unfold toggleVoiceInput.
  repeat case_match; intros [= <-]; split; simpl; by try constructor.
Qed.

Lemma onresult_grows transcript now st : grows st (onresult transcript now st).
Proof.
  unfold onresult. apply (sendMessage_grows (VStr transcript) now (setInput transcript st)).
Qed.

Lemma dispatch_grows sys r :
  grows (app sys) r → Forall appendOnly (inflight sys) →
  messages (app sys) `prefix_of` messages (app (dispatch sys r))
  ∧ Forall appendOnly (inflight (dispatch sys r)).
Proof. intros [Hm Hk] Hin. split; [done|]. by apply Forall_app. Qed.

Lemma same_grows sys :
  Forall appendOnly (inflight sys) →
  messages (app sys) `prefix_of` messages (app sys)
  ∧ Forall appendOnly (inflight sys).
Proof. done. Qed.

(** One event extends the conversation at its end, and leaves only
    append-only continuations in flight. *)
Lemma step_grows ev now sys :
  Forall appendOnly (inflight sys) →
  messages (app sys) `prefix_of` messages (app (step ev now sys))
  ∧ Forall appendOnly (inflight (step ev now sys)).
Proof.
  intros Hin. destruct ev; simpl.
  - case_match; [by apply same_grows|]. apply dispatch_grows; [|done].
    split; [done|constructor].
  - case_match; [by apply same_grows|].
    apply dispatch_grows; [apply handleKeyPress_grows|done].
  - case_match; [by apply same_grows|].
    apply dispatch_grows; [apply sendMessage_grows|done].
  - repeat case_match; try by apply same_grows.
    apply dispatch_grows; [apply sendMessage_grows|done].
  - destruct (toggleVoiceInput _ _ _) as [r|] eqn:Hr; [|by apply same_grows].
    apply dispatch_grows; [by eapply toggleVoiceInput_grows|done].
  - case_match; [|by apply same_grows].
    apply dispatch_grows; [|done]. split; [done|constructor].
  - case_match; [|by apply same_grows].
    apply (dispatch_grows sys (onend (app sys), [])); [|done].
    split; [done|constructor].
  - case_match; [|by apply same_grows].
    apply dispatch_grows; [apply onresult_grows|done].
  - case_match; [|by apply same_grows].
    apply dispatch_grows; [|done]. split; [done|constructor].
  - destruct (inflight sys !! i) as [k|] eqn:Hk; [|by apply same_grows].
    split; simpl.
    + by apply (Forall_lookup_1 _ _ _ _ Hin Hk).
    + by apply Forall_delete.
Qed.

Lemma run_grows evs sys :
  Forall appendOnly (inflight sys) →
  messages (app sys) `prefix_of` messages (app (run evs sys))
  ∧ Forall appendOnly (inflight (run evs sys)).
Proof.
  revert sys. induction evs as [|[ev now] evs IH]; intros sys Hin; [done|].
  simpl. destruct (step_grows ev now sys Hin) as [Hm Hk].
  destruct (IH _ Hk) as [Hm' Hk']. split; [by etrans|done].
Qed.

Lemma boot_inflight t0 supported :
  Forall appendOnly (inflight (boot t0 supported)).
Proof. repeat constructor. apply onSuggestions_appendOnly. Qed.

(** C7.  The page starts with the greeting as its only turn.  After any
    sequence of events the conversation still begins with that greeting, so
    it is never empty, and whatever event comes next, the conversation
    before it is a prefix of the conversation after it: turns are only ever
    added at the end. *)
Theorem conversation_append_only t0 supported evs ev now :
  messages (app (boot t0 supported)) = [greeting t0]
  ∧ (∃ rest, messages (app (run evs (boot t0 supported))) = greeting t0 :: rest)
  ∧ messages (app (run evs (boot t0 supported)))
    `prefix_of` messages (app (step ev now (run evs (boot t0 supported)))).
Proof.
  split; [done|].
  destruct (run_grows evs (boot t0 supported) (boot_inflight _ _)) as [Hm Hk].
  split.
  - destruct Hm as [rest ->]. by exists rest.
  - by apply step_grows.
Qed.

End AppendOnly.

(** ** The formatter *)

Section Formatter.

Implicit Types (s t pre inner post rest : string) (a b c : ascii).

Lemma length_append s t :
  String.length (s +:+ t) = (String.length s + String.length t)%nat.
Proof. induction s as [|a s IH]; [done|]. rewrite append_cons. simpl. by rewrite IH. Qed.

Lemma hasStar_cons a s :
  hasStar (String a s) = false → Ascii.eqb a star = false ∧ hasStar s = false.
Proof. simpl. by intros [??]%orb_false_elim. Qed.

Lemma matchAt_not_star a s : Ascii.eqb a star = false → matchAt (String a s) = None.
Proof. intros H. unfold matchAt. destruct s; [done|]. by rewrite H. Qed.

(** The scan passes over the bytes of a match without looking at them. *)
Lemma replaceFrom_skip s rest :
  replaceFrom (String.length s) (s +:+ rest) = replaceFrom 0 rest.
Proof.
  induction s as [|a s IH]; [by destruct rest|].
  rewrite append_cons. simpl. apply IH.
Qed.

(** A stretch without asterisks is copied. *)
Lemma replaceFrom_noStar pre rest :
  hasStar pre = false →
  replaceFrom 0 (pre +:+ rest) = pre +:+ replaceFrom 0 rest.
Proof.
  induction pre as [|a pre IH]; [done|].
  intros [Ha Hpre]%hasStar_cons. rewrite !append_cons.
  change (replaceFrom 0 (String a (pre +:+ rest))) with
    (match matchAt (String a (pre +:+ rest)) with
     | Some (g, n) =>
         "<strong>" +:+ g +:+ "</strong>" +:+ replaceFrom (pred n) (pre +:+ rest)
     | None => String a (replaceFrom 0 (pre +:+ rest))
     end).
  by rewrite (matchAt_not_star _ _ Ha), (IH Hpre).
Qed.

Lemma replaceBold_noStar s : hasStar s = false → replaceBold s = s.
Proof.
  intros H. unfold replaceBold. rewrite <- (append_nil_r s) at 1.
  rewrite (replaceFrom_noStar _ _ H). simpl. apply append_nil_r.
Qed.

(** A line terminator is recognised on at most three bytes, none of which
    is an asterisk. *)
Lemma startsWithLineTerminator_append s rest :
  startsWithLineTerminator s = true →
  startsWithLineTerminator (s +:+ rest) = true.
Proof.
  destruct s as [|a [|b [|c s]]]; simpl; try done.
  - rewrite !orb_false_r. intros ->. by destruct rest as [|? [|??]].
  - rewrite !orb_false_r. intros ->. by destruct rest as [|??].
Qed.

Lemma startsWithLineTerminator_stars a s rest :
  startsWithLineTerminator (String a s) = false →
  startsWithLineTerminator (String a (s +:+ "**" +:+ rest)) = false.
Proof.
  destruct s as [|b [|c s]]; simpl; try done.
  - rewrite !orb_false_r. intros ->. by rewrite andb_false_r.
  - rewrite !orb_false_r. intros ->. by rewrite andb_false_r.
Qed.

Lemma hasLineTerminator_cons a s :
  hasLineTerminator (String a s) = false →
  startsWithLineTerminator (String a s) = false ∧ hasLineTerminator s = false.
Proof.
  change (hasLineTerminator (String a s)) with
    (startsWithLineTerminator (String a s) || hasLineTerminator s).
  by intros [??]%orb_false_elim.
Qed.

Lemma hasLineTerminator_hasLineFeed s :
  hasLineTerminator s = false → hasLineFeed s = false.
Proof.
  induction s as [|a s IH]; [done|].
  intros [Ha Hs]%hasLineTerminator_cons. simpl. rewrite (IH Hs), orb_false_r.
  simpl in Ha. by destruct (code a =? 10)%N.
Qed.

(** One step of the scan at an opening pair of asterisks. *)
Lemma replaceFrom_at_stars rest :
  replaceFrom 0 ("**" +:+ rest)
  = match lazyGroup rest with
    | Some (g, n) =>
        "<strong>" +:+ g +:+ "</strong>" +:+ replaceFrom (S n) ("*" +:+ rest)
    | None => String star (replaceFrom 0 ("*" +:+ rest))
    end.
Proof.
  change (replaceFrom 0 ("**" +:+ rest)) with
    (match matchAt ("**" +:+ rest) with
     | Some (g, n) =>
         "<strong>" +:+ g +:+ "</strong>" +:+ replaceFrom (pred n) ("*" +:+ rest)
     | None => String star (replaceFrom 0 ("*" +:+ rest))
     end).
  change (matchAt ("**" +:+ rest)) with
    (match lazyGroup rest with
     | Some (g, n) => Some (g, (2 + n)%nat)
     | None => None
     end).
  by destruct (lazyGroup rest) as [[g n]|].
Qed.

Lemma nl2br_append s t : nl2br (s +:+ t) = nl2br s +:+ nl2br t.
Proof.
  induction s as [|a s IH]; [done|]. rewrite append_cons. simpl.
  destruct (code a =? 10)%N; by rewrite IH, ?append_assoc.
Qed.

Lemma nl2br_noLineFeed s : hasLineFeed s = false → nl2br s = s.
Proof.
  induction s as [|a s IH]; [done|]. simpl.
  intros [-> Hs]%orb_false_elim. by rewrite (IH Hs).
Qed.

Lemma formatMessage_string s :
  s ≠ "" → formatMessage (VStr s) = Normal (RSpan (nl2br (replaceBold s))).
Proof. by destruct s. Qed.

Lemma append_not_empty s t : t ≠ "" → s +:+ t ≠ "".
Proof. by destruct s, t. Qed.

(** *** Pairs of asterisks in arbitrary text *)

Lemma hasPair_cons a s :
  hasPair (String a s) = false →
  startsWithStars (String a s) = false ∧ hasPair s = false.
Proof.
  change (hasPair (String a s)) with (startsWithStars (String a s) || hasPair s).
  by intros [??]%orb_false_elim.
Qed.

(** Whether two asterisks stand at the head is settled by the first two
    bytes. *)
Lemma startsWithStars_head a s x :
  startsWithStars (String a (s +:+ "*")) = false →
  startsWithStars (String a (s +:+ x)) = false.
Proof.
  destruct s as [|b s]; [|done]. simpl. rewrite andb_true_r. intros ->.
  by destruct x.
Qed.

Lemma matchAt_not_stars s : startsWithStars s = false → matchAt s = None.
Proof.
  destruct s as [|a [|b s]]; try done. simpl. by intros ->.
Qed.

(** A stretch with no pair of asterisks in it, and none formed with what
    follows, is copied. *)
Lemma replaceFrom_noPair pre rest :
  hasPair (pre +:+ "*") = false →
  replaceFrom 0 (pre +:+ rest) = pre +:+ replaceFrom 0 rest.
Proof.
  induction pre as [|a pre IH]; [done|]. rewrite !append_cons.
  intros [Ha Hpre]%hasPair_cons.
  change (replaceFrom 0 (String a (pre +:+ rest))) with
    (match matchAt (String a (pre +:+ rest)) with
     | Some (g, n) =>
         "<strong>" +:+ g +:+ "</strong>" +:+ replaceFrom (pred n) (pre +:+ rest)
     | None => String a (replaceFrom 0 (pre +:+ rest))
     end).
  rewrite (matchAt_not_stars _ (startsWithStars_head _ _ rest Ha)).
  by rewrite (IH Hpre).
Qed.

Lemma replaceBold_noPair s : hasPair s = false → replaceBold s = s.
Proof.
  intros H. unfold replaceBold.
  induction s as [|a s IH]; [done|].
  destruct (hasPair_cons _ _ H) as [Ha Hs].
  change (replaceFrom 0 (String a s)) with
    (match matchAt (String a s) with
     | Some (g, n) => "<strong>" +:+ g +:+ "</strong>" +:+ replaceFrom (pred n) s
     | None => String a (replaceFrom 0 s)
     end).
  by rewrite (matchAt_not_stars _ Ha), (IH Hs).
Qed.

Lemma lazyGroup_unfold a s :
  lazyGroup (String a s)
  = if startsWithStars (String a s) then Some ("", 2%nat)
    else if startsWithLineTerminator (String a s) then None
    else match lazyGroup s with
         | Some (g, n) => Some (String a g, S n)
         | None => None
         end.
Proof. reflexivity. Qed.

Lemma lazyGroup_closes inner rest :
  hasPair (inner +:+ "*") = false → hasLineTerminator inner = false →
  lazyGroup (inner +:+ "**" +:+ rest) = Some (inner, (String.length inner + 2)%nat).
Proof.
  induction inner as [|a inner IH]; [done|].
  rewrite (append_cons a inner "*"), (append_cons a inner ("**" +:+ rest)).
  intros [Ha Hs]%hasPair_cons [Hl Ht]%hasLineTerminator_cons.
  rewrite lazyGroup_unfold.
  rewrite (startsWithStars_head _ _ ("**" +:+ rest) Ha).
  rewrite (startsWithLineTerminator_stars _ _ _ Hl).
  by rewrite (IH Hs Ht).
Qed.

Lemma lazyGroup_noPair s : hasPair s = false → lazyGroup s = None.
Proof.
  induction s as [|a s IH]; [done|]. intros [Ha Hs]%hasPair_cons.
  rewrite lazyGroup_unfold, Ha, (IH Hs).
  by destruct (startsWithLineTerminator _).
Qed.

(** No line terminator begins with an asterisk. *)
Lemma startsWithLineTerminator_not_star a s :
  startsWithLineTerminator (String a s) = true → Ascii.eqb a star = false.
Proof.
  destruct (Ascii.eqb a star) eqn:E; [|done].
  apply Ascii.eqb_eq in E as ->. by destruct s as [|b [|c s]].
Qed.

Lemma startsWithStars_first a s :
  Ascii.eqb a star = false → startsWithStars (String a s) = false.
Proof. intros H. destruct s; [done|]. simpl. by rewrite H. Qed.

Lemma lazyGroup_cut inner rest :
  hasPair inner = false → hasLineTerminator inner = true →
  lazyGroup (inner +:+ rest) = None.
Proof.
  induction inner as [|a inner IH]; [done|]. rewrite !append_cons.
  intros [Ha Hs]%hasPair_cons Hl. rewrite lazyGroup_unfold.
  change (hasLineTerminator (String a inner)) with
    (startsWithLineTerminator (String a inner) || hasLineTerminator inner) in Hl.
  apply orb_true_iff in Hl as [Hl|Hl].
  - rewrite (startsWithStars_first _ _ (startsWithLineTerminator_not_star _ _ Hl)).
    rewrite <- append_cons. by rewrite (startsWithLineTerminator_append _ _ Hl).
  - assert (startsWithStars (String a (inner +:+ rest)) = false) as ->.
    { destruct inner as [|b inner]; [done|]. exact Ha. }
    rewrite (IH Hs Hl). by destruct (startsWithLineTerminator _).
Qed.

(** *** The scan never crosses a line feed *)

Lemma startsWithStars_lf s t :
  startsWithStars (s +:+ LF +:+ t) = startsWithStars s.
Proof.
  unfold LF.
  destruct s as [|a [|b s]]; rewrite ?append_cons; simpl;
    rewrite ?andb_false_r; try done.
  by destruct t.
Qed.

Lemma startsWithLineTerminator_lf a s t :
  startsWithLineTerminator (String a (s +:+ LF +:+ t))
  = startsWithLineTerminator (String a s).
Proof.
  unfold LF.
  destruct s as [|b [|c s]]; rewrite ?append_cons; simpl;
    rewrite ?andb_false_r, ?orb_false_r; try done.
  destruct t; simpl; by rewrite ?orb_false_r.
Qed.

Lemma lazyGroup_lf s t : lazyGroup (s +:+ LF +:+ t) = lazyGroup s.
Proof.
  induction s as [|a s IH]; [by destruct t|].
  rewrite append_cons, !lazyGroup_unfold.
  rewrite <- append_cons, startsWithStars_lf, append_cons.
  by rewrite startsWithLineTerminator_lf, IH.
Qed.

Lemma matchAt_lf s t : matchAt (s +:+ LF +:+ t) = matchAt s.
Proof.
  destruct s as [|a [|b s]].
  - by destruct t.
  - simpl. by rewrite andb_false_r.
  - rewrite !append_cons. unfold matchAt. by rewrite lazyGroup_lf.
Qed.

Lemma lazyGroup_length s g n :
  lazyGroup s = Some (g, n) → (n ≤ String.length s)%nat.
Proof.
  revert g n. induction s as [|a s IH]; intros g n; [done|].
  rewrite lazyGroup_unfold. destruct (startsWithStars (String a s)) eqn:Hst.
  - intros [= <- <-]. destruct s as [|b s]; [done|]. simpl. lia.
  - destruct (startsWithLineTerminator _); [done|].
    destruct (lazyGroup s) as [[g' n']|]; [|done].
    intros [= <- <-]. specialize (IH _ _ eq_refl). simpl. lia.
Qed.

Lemma matchAt_length s g n :
  matchAt s = Some (g, n) → (n ≤ String.length s)%nat.
Proof.
  destruct s as [|a [|b s]]; try done. unfold matchAt.
  destruct (_ && _); [|done].
  destruct (lazyGroup s) as [[g' n']|] eqn:Hg; [|done].
  intros [= <- <-]. apply lazyGroup_length in Hg. simpl. lia.
Qed.

Lemma replaceFrom_lf s t k :
  (k ≤ String.length s)%nat →
  replaceFrom k (s +:+ LF +:+ t) = replaceFrom k s +:+ LF +:+ replaceFrom 0 t.
Proof.
  revert k. induction s as [|a s IH]; intros k Hk.
  { simpl in Hk. assert (k = 0%nat) as -> by lia. by destruct t. }
  rewrite append_cons. destruct k as [|k].
  - change (replaceFrom 0 (String a (s +:+ LF +:+ t))) with
      (match matchAt (String a (s +:+ LF +:+ t)) with
       | Some (g, n) =>
           "<strong>" +:+ g +:+ "</strong>"
           +:+ replaceFrom (pred n) (s +:+ LF +:+ t)
       | None => String a (replaceFrom 0 (s +:+ LF +:+ t))
       end).
    change (replaceFrom 0 (String a s)) with
      (match matchAt (String a s) with
       | Some (g, n) => "<strong>" +:+ g +:+ "</strong>" +:+ replaceFrom (pred n) s
       | None => String a (replaceFrom 0 s)
       end).
    rewrite <- append_cons, matchAt_lf.
    destruct (matchAt (String a s)) as [[g n]|] eqn:Hm.
    + apply matchAt_length in Hm. simpl in Hm.
      rewrite IH by lia. by rewrite !append_assoc.
    + rewrite IH by lia. reflexivity.
  - simpl in Hk. change (replaceFrom (S k) (String a (s +:+ LF +:+ t)))
      with (replaceFrom k (s +:+ LF +:+ t)).
    change (replaceFrom (S k) (String a s)) with (replaceFrom k s).
    apply IH. lia.
Qed.

Lemma replaceBold_lf s t :
  replaceBold (s +:+ LF +:+ t) = replaceBold s +:+ LF +:+ replaceBold t.
Proof. apply replaceFrom_lf. lia. Qed.

(** C9, as amended.  The formatter works on each line by itself: a line
    feed always becomes a [br] tag and no emphasis reaches across one.
    Reading from the left, a pair of asterisks that is followed by a next
    pair with no line terminator in between is rendered as [strong] tags
    around the text between the two; a pair for which a line terminator,
    or the end of the text, comes before any next pair opens nothing: its
    first asterisk is copied and the reading goes on at its second.  Text
    without a pair of asterisks has nothing but its line feeds replaced,
    so that lone asterisks and any markup it holds are passed on byte for
    byte. *)
Theorem formatMessage_markup :
  (∀ s t,
      formatMessage (VStr (s +:+ LF +:+ t))
      = Normal (RSpan (nl2br (replaceBold s) +:+ "<br/>" +:+ nl2br (replaceBold t))))
  ∧ (∀ pre inner post,
        hasPair (pre +:+ "*") = false →
        hasPair (inner +:+ "*") = false →
        hasLineTerminator inner = false →
        formatMessage (VStr (pre +:+ "**" +:+ inner +:+ "**" +:+ post))
        = Normal (RSpan (nl2br pre +:+ "<strong>" +:+ inner +:+ "</strong>"
                         +:+ nl2br (replaceBold post))))
  ∧ (∀ pre inner rest,
        hasPair (pre +:+ "*") = false →
        hasPair inner = false →
        hasLineTerminator inner = true ∨ rest = "" →
        formatMessage (VStr (pre +:+ "**" +:+ inner +:+ rest))
        = Normal (RSpan (nl2br pre +:+ "*"
                         +:+ nl2br (replaceBold ("*" +:+ inner +:+ rest)))))
  ∧ (∀ s,
        s ≠ "" → hasPair s = false →
        formatMessage (VStr s) = Normal (RSpan (nl2br s)))
  ∧ (∀ s, hasLineFeed s = false → nl2br s = s).
Proof.
  split; [|split; [|split; [|split]]].
  - intros s t.
    rewrite (formatMessage_string (s +:+ LF +:+ t)); [|by apply append_not_empty].
    by rewrite replaceBold_lf, !nl2br_append.
  - intros pre inner post Hpre Hin Hlt.
    rewrite formatMessage_string by (by apply append_not_empty).
    unfold replaceBold. rewrite (replaceFrom_noPair _ _ Hpre), replaceFrom_at_stars.
    rewrite (lazyGroup_closes _ _ Hin Hlt).
    replace ("*" +:+ inner +:+ "**" +:+ post)
      with (("*" +:+ inner +:+ "**") +:+ post)
      by (by rewrite !append_cons, !append_assoc).
    replace (S (String.length inner + 2))
      with (String.length ("*" +:+ inner +:+ "**"))
      by (rewrite !length_append; simpl; lia).
    rewrite replaceFrom_skip, !nl2br_append.
    by rewrite (nl2br_noLineFeed inner (hasLineTerminator_hasLineFeed _ Hlt)).
  - intros pre inner rest Hpre Hin Hcut.
    rewrite formatMessage_string by (by apply append_not_empty).
    unfold replaceBold. rewrite (replaceFrom_noPair _ _ Hpre), replaceFrom_at_stars.
    assert (lazyGroup (inner +:+ rest) = None) as ->.
    { destruct Hcut as [Hlt| ->]; [by apply lazyGroup_cut|].
      rewrite append_nil_r. by apply lazyGroup_noPair. }
    by rewrite !nl2br_append.
  - intros s Hne Hs. rewrite (formatMessage_string _ Hne).
    by rewrite (replaceBold_noPair _ Hs).
  - apply nl2br_noLineFeed.
Qed.

Lemma formatMessage_markup_witness :
  hasPair ("2*3 is " +:+ "*") = false
  ∧ hasPair ("six" +:+ "*") = false
  ∧ hasLineTerminator "six" = false
  ∧ formatMessage (VStr ("2*3 is " +:+ "**" +:+ "six" +:+ "**" +:+ "!"))
    = Normal (RSpan "2*3 is <strong>six</strong>!").
Proof.
  split; [reflexivity|]. split; [reflexivity|]. split; [reflexivity|].
  destruct formatMessage_markup as (_ & H & _).
  exact (H "2*3 is " "six" "!" eq_refl eq_refl eq_refl).
Defined.

(** C9 as stated fails: a span between two pairs of asterisks that holds a
    line feed is not rendered emphasized, the asterisks stay in the output;
    and markup already in the text is handed on as markup. *)
Lemma multiline_span_counterexample :
  formatMessage (VStr ("**a" +:+ LF +:+ "b**")) = Normal (RSpan "**a<br/>b**")
  ∧ formatMessage (VStr "<i>x</i>") = Normal (RSpan "<i>x</i>").
Proof. split; reflexivity. Qed.

End Formatter.

(** ** The shape of one step of the event loop *)

Section StepShape.

Implicit Types (s : string) (now : Time) (st : State) (sys : System).

(** A call of [sendMessage] either leaves everything as it is (a blank text,
    or an argument that is no string) or sends. *)
Lemma sendMessage_cases (v : value) now st :
  fireAndForget (sendMessage v now st) st = (st, [])
  ∨ ∃ s, isEmpty (trim s) = false
         ∧ (v = VStr s ∨ v = VUndefined ∧ input st = s)
         ∧ fireAndForget (sendMessage v now st) st
           = (sent s now st, [Fetch (chatRequest s) (sendMessage_resume s)]).
Proof.
  destruct v as [| | | |s| |]; try (by left).
  - rewrite sendMessage_default. destruct (isEmpty (trim (input st))) eqn:Hs.
    + left. by rewrite (sendMessage_blank _ _ _ Hs).
    + right. exists (input st). split; [done|]. split; [auto|].
      by rewrite (sendMessage_nonblank _ _ _ Hs).
  - destruct (isEmpty (trim s)) eqn:Hs.
    + left. by rewrite (sendMessage_blank _ _ _ Hs).
    + right. exists s. split; [done|]. split; [auto|].
      by rewrite (sendMessage_nonblank _ _ _ Hs).
Qed.

Lemma quiet_refl sys : quiet sys sys.
Proof. repeat split; auto. Qed.

Lemma dispatch_send_cases sys (v : value) now st0 :
  messages st0 = messages (app sys) →
  isLoading st0 = isLoading (app sys) →
  suggestions st0 = suggestions (app sys) →
  isListening st0 = isListening (app sys) →
  quiet sys (dispatch sys (fireAndForget (sendMessage v now st0) st0))
  ∨ sends now sys (dispatch sys (fireAndForget (sendMessage v now st0) st0)).
Proof.
  intros Hm Hl Hs Hi.
  destruct (sendMessage_cases v now st0) as [->|(s & Hs' & _ & ->)].
  - left. unfold dispatch. simpl. rewrite app_nil_r. repeat split; auto.
  - right. exists s, st0. by repeat split.
Qed.

Lemma quiet_dispatch sys st :
  messages st = messages (app sys) →
  isLoading st = isLoading (app sys) →
  suggestions st = suggestions (app sys) →
  isListening st = isListening (app sys) ∨ speechSupported sys = true →
  quiet sys (dispatch sys (st, [])).
Proof. intros. unfold dispatch, quiet. simpl. by rewrite app_nil_r. Qed.

Lemma step_shape ev now sys :
  speechSupported (step ev now sys) = speechSupported sys
  ∧ (quiet sys (step ev now sys)
     ∨ sends now sys (step ev now sys)
     ∨ settles ev now sys (step ev now sys)).
Proof.
  destruct ev; simpl.
  - case_match; (split; [done|left]); [apply quiet_refl|].
    apply quiet_dispatch; auto.
  - case_match; [split; [done|left; apply quiet_refl]|].
    split; [done|]. unfold handleKeyPress. case_match.
    + destruct (dispatch_send_cases sys VUndefined now (app sys)) as [H1|H1];
        try done; destruct (fireAndForget _ _) as [st' effs];
        [left; exact H1|right; left; exact H1].
    + left. apply quiet_dispatch; auto.
  - case_match; [split; [done|left; apply quiet_refl]|].
    split; [done|].
    destruct (dispatch_send_cases sys VUndefined now (app sys)); auto.
  - destruct (suggestionsPanel (app sys)) as [chips|];
      [|split; [done|left; apply quiet_refl]].
    destruct (chips !! i) as [suggestion|];
      [|split; [done|left; apply quiet_refl]].
    split; [done|].
    destruct (dispatch_send_cases sys suggestion now (app sys)); auto.
  - unfold toggleVoiceInput.
    destruct (speechSupported sys) eqn:Hsup; simpl.
    + destruct (isListening (app sys)) eqn:Hl;
        [|destruct (recognizing sys)]; (split; [done|left]);
        try apply quiet_refl; apply quiet_dispatch; auto.
    + split; [done|left]. apply quiet_dispatch; auto.
  - case_match; (split; [done|left]); [|apply quiet_refl].
    apply quiet_dispatch; auto.
  - case_match; (split; [done|left]); [|apply quiet_refl].
    apply (quiet_dispatch sys (onend (app sys))); auto.
  - case_match; [|split; [done|left; apply quiet_refl]].
    split; [done|]. unfold onresult.
    destruct (dispatch_send_cases sys (VStr transcript) now
                (setInput transcript (app sys))); auto.
  - case_match; (split; [done|left]); [|apply quiet_refl].
    apply quiet_dispatch; auto.
  - destruct (inflight sys !! i) as [k|] eqn:Hk;
      [|split; [done|left; apply quiet_refl]].
    split; [done|]. right. right. by exists i, k, o.
Qed.

End StepShape.

(** ** What every reachable page satisfies *)

Section Reachable.

Implicit Types (s : string) (now : Time) (st : State) (sys : System)
  (tags : list Origin) (msgs : list Message).

Lemma countRole_app r msgs1 msgs2 :
  countRole r (msgs1 ++ msgs2) = (countRole r msgs1 + countRole r msgs2)%nat.
Proof. induction msgs1 as [|m msgs1 IH]; simpl; [done|]. rewrite IH. lia. Qed.

Lemma pendingSends_app tags1 tags2 :
  pendingSends (tags1 ++ tags2) = (pendingSends tags1 + pendingSends tags2)%nat.
Proof.
  induction tags1 as [|[|s] tags1 IH]; simpl; [done|done|]. by rewrite IH.
Qed.

Lemma pendingSends_delete tags i g :
  tags !! i = Some g →
  pendingSends tags
  = (pendingSends (delete i tags)
     + match g with FromSend _ => 1 | FromMount => 0 end)%nat.
Proof.
  revert i. induction tags as [|g' tags IH]; intros [|i] H; simplify_eq/=.
  - destruct g; lia.
  - rewrite (IH _ H). by destruct g'.
Qed.

Lemma fmap_delete_list {A B} (f : A → B) (l : list A) i :
  f <$> delete i l = delete i (f <$> l).
Proof.
  revert i. induction l as [|x l IH]; intros [|i]; simpl; try done.
  by rewrite IH.
Qed.

Lemma onSuggestions_frame o now st :
  messages (onSuggestions o now st) = messages st
  ∧ input (onSuggestions o now st) = input st
  ∧ isLoading (onSuggestions o now st) = isLoading st
  ∧ isListening (onSuggestions o now st) = isListening st.
Proof.
  unfold onSuggestions. destruct o as [|status [data|]]; try done.
  by destruct (Get data "suggestions").
Qed.

Lemma resume_frame s o now st :
  suggestions (sendMessage_resume s o now st) = suggestions st
  ∧ isListening (sendMessage_resume s o now st) = isListening st.
Proof. unfold sendMessage_resume. by destruct (tryBlock o now). Qed.

Lemma botTurn_counts o now :
  isRole user (botTurn o now) = false ∧ isRole bot (botTurn o now) = true.
Proof.
  destruct (botTurn_bot o now) as [H _]. unfold isRole. by rewrite H.
Qed.

Lemma countRole_botTurn msgs o now :
  countRole user (msgs ++ [botTurn o now]) = countRole user msgs
  ∧ countRole bot (msgs ++ [botTurn o now]) = S (countRole bot msgs).
Proof.
  destruct (botTurn_counts o now) as [Hu Hb].
  rewrite !countRole_app. cbn [countRole]. rewrite Hu, Hb. lia.
Qed.

Lemma not_mount_delete tags i :
  FromMount ∉ tags → FromMount ∉ delete i tags.
Proof.
  intros H Hin. apply H. by eapply list_elem_of_delete_inv.
Qed.

Lemma boot_invariant t0 supported : Invariant (boot t0 supported) [FromMount].
Proof.
  split; simpl; try done.
  - repeat constructor. by intros [=].
  - by intros [|i] H; simplify_eq/=.
Qed.

(** Settling the request at position [i] removes its tag. *)
Lemma settle_invariant i o now sys tags g :
  Invariant sys tags → tags !! i = Some g →
  Invariant (step (Settle i o) now sys) (delete i tags)
  ∧ (g ≠ FromMount →
     suggestions (app (step (Settle i o) now sys)) = suggestions (app sys)).
Proof.
  intros [Hin Hturns Hbusy Huser Hlis Hmount] Hg. simpl.
  rewrite Hin, list_lookup_fmap, Hg. simpl. rewrite <- fmap_delete_list.
  assert (∀ j, delete i tags !! j = Some FromMount → j = 0%nat) as Hmount'.
  { intros j Hj. destruct (decide (j < i)%nat) as [Hlt|Hge].
    - rewrite list_lookup_delete_lt in Hj by done. by apply Hmount.
    - rewrite list_lookup_delete_ge in Hj by lia. apply Hmount in Hj. lia. }
  pose proof (pendingSends_delete _ _ _ Hg) as Hp.
  destruct g as [|s]; simpl in *.
  - destruct (onSuggestions_frame o now (app sys)) as (Hm & _ & Hl & Hli).
    split; [|done].
    split; cbn [app inflight speechSupported]; rewrite ?Hm, ?Hl, ?Hli; try done.
    + lia.
    + intros Hb. apply Hbusy in Hb. lia.
  - destruct (resume_frame s o now (app sys)) as (Hsg & Hli).
    destruct (countRole_botTurn (messages (app sys)) o now) as [Hu Hb].
    split; [|done]. split; cbn [app inflight speechSupported]; try done.
    + rewrite resume_messages, Hu, Hb. lia.
    + rewrite resume_messages. apply Forall_app. split; [done|].
      repeat constructor. intros Hty.
      destruct (botTurn_bot o now) as [Hbot _]. congruence.
    + by rewrite Hli.
Qed.

(** One event keeps the invariant; once the mount request is gone it stays
    gone and the suggestions stay as they are. *)
Lemma step_invariant ev now sys tags :
  Invariant sys tags →
  ∃ tags',
    Invariant (step ev now sys) tags'
    ∧ (FromMount ∉ tags →
       (FromMount ∉ tags')
       ∧ suggestions (app (step ev now sys)) = suggestions (app sys)).
Proof.
  intros Hinv. pose proof Hinv as [Hin Hturns Hbusy Huser Hlis Hmount].
  destruct (step_shape ev now sys) as [Hsup [Hq|[Hs|Hs]]].
  - destruct Hq as (Hq1 & Hq2 & Hq3 & Hq4 & Hq5). exists tags.
    split; [|done]. split; rewrite ?Hq1, ?Hq2, ?Hq3, ?Hsup; try done.
    intros Hno. destruct Hq5 as [->|?]; [auto|congruence].
  - destruct Hs as (s & st0 & Hne & Hm & Hsg & Hl & Happ & Hfl).
    exists (tags ++ [FromSend s]). split; [split|]; rewrite ?Happ; simpl.
    + by rewrite Hfl, Hin, fmap_app.
    + rewrite Hm, !countRole_app, pendingSends_app. simpl. lia.
    + intros _. rewrite pendingSends_app. simpl. lia.
    + rewrite Hm. apply Forall_app. split; [done|].
      repeat constructor. intros _. by exists s.
    + rewrite Hsup, Hl. apply Hlis.
    + intros i Hi. apply lookup_app_Some in Hi as [Hi|[_ Hi]]; [by apply Hmount|].
      destruct (i - length tags)%nat; simplify_eq/=.
    + intros Hno. split; [|done].
      rewrite elem_of_app. intros [?|Hx]; [done|].
      by apply list_elem_of_singleton in Hx.
  - destruct Hs as (i & k & o & -> & Hk & _ & _).
    rewrite Hin, list_lookup_fmap in Hk.
    destruct (tags !! i) as [g|] eqn:Hg; [|done].
    destruct (settle_invariant i o now sys tags g Hinv Hg) as [Hinv' Hsg].
    exists (delete i tags). split; [done|]. intros Hno.
    split; [by apply not_mount_delete|]. apply Hsg. intros ->.
    apply Hno. by eapply list_elem_of_lookup_2.
Qed.

Lemma run_invariant evs sys tags :
  Invariant sys tags →
  ∃ tags',
    Invariant (run evs sys) tags'
    ∧ (FromMount ∉ tags →
       (FromMount ∉ tags')
       ∧ suggestions (app (run evs sys)) = suggestions (app sys)).
Proof.
  revert sys tags. induction evs as [|[ev now] evs IH]; intros sys tags Hinv.
  { by exists tags. }
  destruct (step_invariant ev now sys tags Hinv) as (tags1 & Hinv1 & Hno1).
  destruct (IH _ _ Hinv1) as (tags2 & Hinv2 & Hno2).
  exists tags2. split; [done|]. intros Hno.
  destruct (Hno1 Hno) as [Hno1' Hs1]. destruct (Hno2 Hno1') as [Hno2' Hs2].
  split; [done|]. simpl. by rewrite Hs2, Hs1.
Qed.

Lemma reachable_invariant t0 supported evs :
  ∃ tags, Invariant (run evs (boot t0 supported)) tags.
Proof.
  destruct (run_invariant evs _ _ (boot_invariant t0 supported)) as (tags & H & _).
  by exists tags.
Qed.

End Reachable.

(** ** The page over whole sessions *)

Section Sessions.

Implicit Types (s : string) (now : Time) (st : State) (sys : System)
  (tags : list Origin) (evs : list (Event * Time)).

Lemma pendingSends_le tags : (pendingSends tags ≤ length tags)%nat.
Proof. induction tags as [|[|s] tags IH]; simpl; lia. Qed.

Lemma pendingSends_pos tags :
  (0 < pendingSends tags)%nat → ∃ i s, tags !! i = Some (FromSend s).
Proof.
  induction tags as [|[|s] tags IH]; simpl; intros H; [lia| |by exists 0%nat, s].
  destruct (IH H) as (i & s & Hi). by exists (S i), s.
Qed.

Lemma run_app evs1 evs2 sys : run (evs1 ++ evs2) sys = run evs2 (run evs1 sys).
Proof.
  revert sys. induction evs1 as [|[ev now] evs1 IH]; intros sys; [done|].
  simpl. apply IH.
Qed.

Lemma step_settle sys i k o now :
  inflight sys !! i = Some k →
  app (step (Settle i o) now sys) = k o now (app sys).
Proof. intros H. unfold step. by rewrite H. Qed.

(** X1.  After any sequence of events the turns balance: besides the
    greeting there is one bot turn for every user turn, less the messages
    whose request is still in flight, and these are at most as many as the
    requests in flight.  With nothing in flight the bot turns are exactly
    one more than the user turns. *)
Theorem turns_balance t0 supported evs :
  ∃ pending,
    (pending ≤ length (inflight (run evs (boot t0 supported))))%nat
    ∧ (countRole user (messages (app (run evs (boot t0 supported)))) + 1
       = countRole bot (messages (app (run evs (boot t0 supported)))) + pending)%nat
    ∧ (inflight (run evs (boot t0 supported)) = [] →
       countRole bot (messages (app (run evs (boot t0 supported))))
       = (countRole user (messages (app (run evs (boot t0 supported)))) + 1)%nat).
Proof.
  destruct (reachable_invariant t0 supported evs) as [tags Hinv].
  destruct Hinv as [Hin Hturns _ _ _ _]. exists (pendingSends tags).
  pose proof (pendingSends_le tags) as Hle.
  rewrite Hin, length_fmap. split; [done|]. split; [done|].
  intros Hnil. apply fmap_nil_inv in Hnil. subst tags. simpl in *. lia.
Qed.

(** X2.  Whenever the busy flag is set, a chat request is in flight, and
    the flag is cleared as soon as that request settles, whatever its
    outcome. *)
Theorem busy_has_request_in_flight t0 supported evs :
  isLoading (app (run evs (boot t0 supported))) = true →
  ∃ i s,
    inflight (run evs (boot t0 supported)) !! i = Some (sendMessage_resume s)
    ∧ ∀ o now,
        isLoading (app (step (Settle i o) now (run evs (boot t0 supported))))
        = false.
Proof.
  intros Hbusy.
  destruct (reachable_invariant t0 supported evs) as [tags Hinv].
  destruct (pendingSends_pos tags (inv_busy _ _ Hinv Hbusy)) as (i & s & Hi).
  assert (inflight (run evs (boot t0 supported)) !! i = Some (sendMessage_resume s))
    as Hk by (by rewrite (inv_inflight _ _ Hinv), list_lookup_fmap, Hi).
  exists i, s. split; [done|]. intros o now.
  by rewrite (step_settle _ _ _ _ _ Hk).
Qed.

Lemma busy_has_request_in_flight_witness :
  isLoading (app (run [(SpeechResult "hi", 1%Z)] (boot 0%Z true))) = true ∧
  ∃ i s,
    inflight (run [(SpeechResult "hi", 1%Z)] (boot 0%Z true)) !! i
    = Some (sendMessage_resume s)
    ∧ ∀ o now,
        isLoading (app (step (Settle i o) now
                          (run [(SpeechResult "hi", 1%Z)] (boot 0%Z true))))
        = false.
Proof.
  split; [reflexivity|].
  apply (busy_has_request_in_flight 0%Z true [(SpeechResult "hi", 1%Z)]).
  reflexivity.
Defined.

Lemma nonblank_nonempty s : isEmpty (trim s) = false → s ≠ "".
Proof. by intros H ->. Qed.

(** X3.  Every user turn of a reachable conversation holds a string that
    is not blank, and is rendered as a row of class [message user] with the
    avatar on the user's side and the formatted text as its bubble. *)
Theorem user_turns_render t0 supported evs (m : Message) :
  m ∈ messages (app (run evs (boot t0 supported))) →
  type m = user →
  ∃ s,
    text m = VStr s
    ∧ isEmpty (trim s) = false
    ∧ renderMessage m
      = Normal (mkMessageView "message user" false
                  (RSpan (nl2br (replaceBold s))) true).
Proof.
  intros Hm Hty.
  destruct (reachable_invariant t0 supported evs) as [tags Hinv].
  pose proof (inv_user _ _ Hinv) as Huser.
  rewrite Forall_forall in Huser. destruct (Huser m Hm Hty) as (s & Hs & Hne).
  exists s. split; [done|]. split; [done|].
  unfold renderMessage, isRole. rewrite Hs, Hty.
  by rewrite (formatMessage_string _ (nonblank_nonempty _ Hne)).
Qed.

Lemma user_turns_render_witness :
  mkMessage user (VStr "hi") 1%Z
    ∈ messages (app (run [(SpeechResult "hi", 1%Z)] (boot 0%Z true)))
  ∧ ∃ s,
      text (mkMessage user (VStr "hi") 1%Z) = VStr s
      ∧ isEmpty (trim s) = false
      ∧ renderMessage (mkMessage user (VStr "hi") 1%Z)
        = Normal (mkMessageView "message user" false
                    (RSpan (nl2br (replaceBold s))) true).
Proof.
  assert (mkMessage user (VStr "hi") 1%Z
            ∈ messages (app (run [(SpeechResult "hi", 1%Z)] (boot 0%Z true))))
    as Hin by (apply list_elem_of_In; simpl; auto).
  split; [exact Hin|].
  exact (user_turns_render 0%Z true [(SpeechResult "hi", 1%Z)] _ Hin eq_refl).
Defined.

Lemma run_speechSupported evs sys :
  speechSupported (run evs sys) = speechSupported sys.
Proof.
  revert sys. induction evs as [|[ev now] evs IH]; intros sys; [done|].
  simpl. rewrite IH. apply step_shape.
Qed.

(** X4.  In a browser without speech recognition the listening flag is
    never set, whatever the user does. *)
Theorem never_listening_without_speech t0 evs :
  isListening (app (run evs (boot t0 false))) = false.
Proof.
  destruct (run_invariant evs _ _ (boot_invariant t0 false)) as (tags & Hinv & _).
  apply (inv_listening _ _ Hinv). by rewrite run_speechSupported.
Qed.

(** X5.  The suggestions are loaded at most once: after the request at the
    head of the queue has been settled, which is the suggestions request as
    long as that is in flight, no later event changes them. *)
Theorem suggestions_fixed_once_loaded t0 supported evs o now evs' :
  suggestions
    (app (run evs' (step (Settle 0 o) now (run evs (boot t0 supported)))))
  = suggestions (app (step (Settle 0 o) now (run evs (boot t0 supported)))).
Proof.
  destruct (reachable_invariant t0 supported evs) as [tags Hinv].
  assert (∃ tags1,
    Invariant (step (Settle 0 o) now (run evs (boot t0 supported))) tags1
    ∧ FromMount ∉ tags1) as (tags1 & Hinv1 & Hno).
  { destruct tags as [|g rest].
    - exists []. split; [|by apply not_elem_of_nil].
      unfold step. by rewrite (inv_inflight _ _ Hinv).
    - exists rest. split.
      + by apply (settle_invariant 0 o now _ (g :: rest) g Hinv).
      + intros Hin. apply list_elem_of_lookup_1 in Hin as [j Hj].
        by pose proof (inv_mount _ _ Hinv (S j) Hj). }
  destruct (run_invariant evs' _ _ Hinv1) as (tags2 & _ & Hfix).
  by destruct (Hfix Hno).
Qed.

(** X6.  Once the conversation has a second turn, the suggestions panel
    stays hidden for the rest of the session. *)
Theorem panel_gone_after_first_turn t0 supported evs evs' :
  (2 ≤ length (messages (app (run evs (boot t0 supported)))))%nat →
  suggestionsPanel (app (run evs' (run evs (boot t0 supported)))) = None.
Proof.
  intros Hlen.
  destruct (run_grows evs _ (boot_inflight t0 supported)) as [_ Hk].
  destruct (run_grows evs' _ Hk) as [[rest Hrest] _].
  unfold suggestionsPanel. destruct (suggestions _); try done.
  rewrite Hrest, length_app. rewrite bool_decide_eq_false_2; [done|lia].
Qed.

Lemma panel_gone_after_first_turn_witness :
  (2 ≤ length (messages (app (run [(SpeechResult "hi", 1%Z)] (boot 0%Z true)))))%nat
  ∧ suggestionsPanel
      (app (run [(Settle 0 (Response 200
                    (Some (VObj {[ "suggestions" := VArr [VStr "a"] ]}))), 2%Z)]
              (run [(SpeechResult "hi", 1%Z)] (boot 0%Z true))))
    = None.
Proof.
  assert (2 ≤ length (messages (app (run [(SpeechResult "hi", 1%Z)] (boot 0%Z true)))))%nat
    as H by (simpl; lia).
  split; [exact H|].
  exact (panel_gone_after_first_turn 0%Z true [(SpeechResult "hi", 1%Z)] _ H).
Defined.

End Sessions.

(** ** Suggestions, chips and speech *)

Section Inputs.

Implicit Types (s : string) (now : Time) (st : State) (sys : System).

Lemma panelExpression_suggestionsPanel positive (st : State) (l : list value) :
  panelExpression positive st = Normal (Some l) ↔ suggestionsPanel st = Some l.
Proof.
  unfold panelExpression, suggestionsPanel.
  destruct (bool_decide (length (messages st) = 1%nat)); simpl.
  - destruct (suggestions st) as [| |b|r|s'|l'|m]; try (split; discriminate).
    + destruct (isEmpty s'); split; discriminate.
    + destruct (bool_decide (0 < length l')%nat); [|split; discriminate].
      split; by intros [= <-].
    + destruct (m !! "length") as [v|]; [|split; discriminate].
      destruct (greaterThanZero positive v) as [[|]|]; split; discriminate.
  - by destruct (suggestions st); split.
Qed.

(** X7.  A suggestions response whose body has a non-empty array under
    [suggestions] makes a one-turn page build buttons for the first four of
    them, whatever the status of the response is; the page with these
    buttons is shown exactly when none of the four is, or holds, a plain
    object, which React refuses as a label. *)
Theorem loaded_suggestions_are_shown positive status (m : gmap string value)
    (l : list value) now st (rs : list MessageView) :
  length (messages st) = 1%nat →
  renderMessages (messages st) = Normal rs →
  m !! "suggestions" = Some (VArr l) →
  l ≠ [] →
  (∃ tree,
      renderPage positive (onSuggestions (Response status (Some (VObj m))) now st)
      = Normal tree
      ∧ rows tree = rs
      ∧ chips tree = Some (take 4 l))
  ∧ shown positive (onSuggestions (Response status (Some (VObj m))) now st)
    = forallb validChild (take 4 l).
Proof.
  intros Hlen Hrs Hm Hl. unfold shown, renderPage, onSuggestions. simpl.
  rewrite Hm. simpl. rewrite Hrs. simpl.
  unfold panelExpression. simpl. rewrite Hlen. simpl.
  destruct l as [|x l]; [done|]. simpl. split; [|done].
  eexists. split; [done|]. by split.
Qed.

Lemma loaded_suggestions_are_shown_witness :
  length (messages (initial 0%Z)) = 1%nat
  ∧ ({[ "suggestions" := VArr [VStr "a"; VObj ∅] ]} : gmap string value)
      !! "suggestions" = Some (VArr [VStr "a"; VObj ∅])
  ∧ shown (λ _, false)
      (onSuggestions
         (Response 500 (Some (VObj {[ "suggestions" := VArr [VStr "a"; VObj ∅] ]})))
         3%Z (initial 0%Z))
    = forallb validChild (take 4 [VStr "a"; VObj ∅]).
Proof.
  split; [reflexivity|]. split; [reflexivity|].
  refine (proj2 (loaded_suggestions_are_shown (λ _, false) 500
           {[ "suggestions" := VArr [VStr "a"; VObj ∅] ]}
           [VStr "a"; VObj ∅] 3%Z (initial 0%Z) _ eq_refl eq_refl eq_refl _)).
  discriminate.
Defined.

(** X8.  When the suggestions request fails, or its body has no truthy
    [suggestions] property, nothing is told to the user: the conversation,
    the draft and the busy flag stay as they are, and on a page that shows
    no chips none appear. *)
Theorem failed_suggestions_stay_silent o now st :
  match o with
  | Response _ (Some data) =>
      ∀ v, Get data "suggestions" = Normal v → truthy v = false
  | _ => True
  end →
  suggestionsPanel st = None →
  messages (onSuggestions o now st) = messages st
  ∧ input (onSuggestions o now st) = input st
  ∧ isLoading (onSuggestions o now st) = isLoading st
  ∧ suggestionsPanel (onSuggestions o now st) = None.
Proof.
  intros Ho Hpanel. unfold onSuggestions.
  destruct o as [|status [data|]]; try done.
  destruct (Get data "suggestions") as [v|e]; [|done].
  unfold or. rewrite (Ho v eq_refl). repeat split.
  unfold suggestionsPanel. simpl. by rewrite andb_false_r.
Qed.

Lemma failed_suggestions_stay_silent_witness :
  suggestionsPanel (initial 0%Z) = None
  ∧ messages (onSuggestions (Response 200 (Some (VObj ∅))) 3%Z (initial 0%Z))
    = messages (initial 0%Z)
  ∧ input (onSuggestions (Response 200 (Some (VObj ∅))) 3%Z (initial 0%Z))
    = input (initial 0%Z)
  ∧ isLoading (onSuggestions (Response 200 (Some (VObj ∅))) 3%Z (initial 0%Z))
    = isLoading (initial 0%Z)
  ∧ suggestionsPanel (onSuggestions (Response 200 (Some (VObj ∅))) 3%Z (initial 0%Z))
    = None.
Proof.
  split; [reflexivity|].
  apply (failed_suggestions_stay_silent (Response 200 (Some (VObj ∅))) 3%Z
           (initial 0%Z)); [|reflexivity].
  intros v [= <-]. reflexivity.
Defined.

(** X9.  A click on a chip whose suggestion is a string that is not blank
    sends that string: one user turn with it, exactly one more request,
    the POST carrying it, one more continuation in flight, the busy flag
    set; whatever draft was typed is thrown away, and the panel is gone. *)
Theorem chip_click_sends sys (chips : list value) i s now :
  suggestionsPanel (app sys) = Some chips →
  chips !! i = Some (VStr s) →
  isEmpty (trim s) = false →
  messages (app (step (ClickSuggestion i) now sys))
  = messages (app sys) ++ [mkMessage user (VStr s) now]
  ∧ issued (step (ClickSuggestion i) now sys)
    = issued sys
      ++ [mkRequest "http://localhost:5000/api/chat" "POST"
            (Some (VObj {[ "message" := VStr s ]}))]
  ∧ inflight (step (ClickSuggestion i) now sys)
    = inflight sys ++ [sendMessage_resume s]
  ∧ input (app (step (ClickSuggestion i) now sys)) = ""
  ∧ isLoading (app (step (ClickSuggestion i) now sys)) = true
  ∧ suggestionsPanel (app (step (ClickSuggestion i) now sys)) = None.
Proof.
  intros Hp Hi Hs. unfold step. rewrite Hp, Hi.
  rewrite (sendMessage_nonblank _ _ _ Hs). unfold dispatch, fireAndForget.
  cbn [fst snd app inflight issued continuations requests]. repeat split.
  unfold suggestionsPanel in *. cbn [suggestions messages setIsLoading setInput setMessages].
  destruct (suggestions (app sys)); try done.
  rewrite length_app. simpl.
  destruct (bool_decide (length (messages (app sys)) = 1%nat)) eqn:E; [|done].
  apply bool_decide_eq_true_1 in E. rewrite E.
  by rewrite (bool_decide_eq_false_2 (1 + 1 = 1)%nat).
Qed.

Lemma chip_click_sends_witness :
  suggestionsPanel
    (app (mkSystem (setInput "draft" (setSuggestions (VArr [VStr "a"; VStr "b"])
                                        (initial 0%Z))) [] true false []))
  = Some [VStr "a"; VStr "b"]
  ∧ messages
      (app (step (ClickSuggestion 1) 4%Z
              (mkSystem (setInput "draft" (setSuggestions (VArr [VStr "a"; VStr "b"])
                                             (initial 0%Z))) [] true false [])))
    = [greeting 0%Z; mkMessage user (VStr "b") 4%Z]
  ∧ issued
      (step (ClickSuggestion 1) 4%Z
         (mkSystem (setInput "draft" (setSuggestions (VArr [VStr "a"; VStr "b"])
                                        (initial 0%Z))) [] true false []))
    = [mkRequest "http://localhost:5000/api/chat" "POST"
         (Some (VObj {[ "message" := VStr "b" ]}))].
Proof.
  split; [reflexivity|].
  destruct (chip_click_sends
              (mkSystem (setInput "draft" (setSuggestions (VArr [VStr "a"; VStr "b"])
                                             (initial 0%Z))) [] true false [])
              [VStr "a"; VStr "b"] 1 "b" 4%Z eq_refl eq_refl eq_refl)
    as (H1 & H2 & _).
  split; [exact H1|exact H2].
Defined.

(** X10.  A recognised utterance that is not blank has the effect of
    submitting it directly, the draft ending up empty; a blank one sends
    nothing but replaces the draft. *)
Theorem speech_result_is_a_submit transcript now st :
  (isEmpty (trim transcript) = false →
   onresult transcript now st
   = fireAndForget (sendMessage (VStr transcript) now st) st
   ∧ input (fst (onresult transcript now st)) = "")
  ∧ (isEmpty (trim transcript) = true →
     onresult transcript now st = (setInput transcript st, [])).
Proof.
  unfold onresult. split; intros H.
  - by rewrite !(sendMessage_nonblank _ _ _ H).
  - by rewrite (sendMessage_blank _ _ _ H).
Qed.

Lemma speech_result_is_a_submit_witness :
  isEmpty (trim "hello") = false
  ∧ onresult "hello" 2%Z (setInput "draft" (initial 0%Z))
    = fireAndForget (sendMessage (VStr "hello") 2%Z (setInput "draft" (initial 0%Z)))
        (setInput "draft" (initial 0%Z))
  ∧ input (fst (onresult "hello" 2%Z (setInput "draft" (initial 0%Z)))) = "".
Proof.
  split; [reflexivity|].
  exact (proj1 (speech_result_is_a_submit "hello" 2%Z
                  (setInput "draft" (initial 0%Z))) eq_refl).
Defined.



End Inputs.

(** ** Replies on the page *)

Section Replies.

Implicit Types (s : string) (now : Time) (st : State) (o : FetchOutcome)
  (msgs : list Message).

(** X12.  An [error] property that is there but falsy (the empty string,
    zero, [false], [null]) is not shown: the reply falls back to the
    generic text. *)
Theorem falsy_error_gets_fallback messageText status (m : gmap string value)
    (e : value) now st :
  ok status = false →
  m !! "error" = Some e →
  truthy e = false →
  messages (sendMessage_resume messageText (Response status (Some (VObj m))) now st)
  = messages st ++ [mkMessage bot (VStr "⚠️ Error: Something went wrong") now].
Proof.
  intros Hok Hm He. rewrite resume_messages. f_equal. f_equal.
  apply (botTurn_error status (VObj m) e); [done|by simpl; rewrite Hm|].
  unfold or. by rewrite He.
Qed.

Lemma falsy_error_gets_fallback_witness :
  ok 400 = false
  ∧ ({[ "error" := VStr "" ]} : gmap string value) !! "error" = Some (VStr "")
  ∧ truthy (VStr "") = false
  ∧ messages (sendMessage_resume "hi"
                (Response 400 (Some (VObj {[ "error" := VStr "" ]}))) 9%Z
                (initial 0%Z))
    = messages (initial 0%Z)
      ++ [mkMessage bot (VStr "⚠️ Error: Something went wrong") 9%Z].
Proof.
  split; [reflexivity|]. split; [reflexivity|]. split; [reflexivity|].
  apply (falsy_error_gets_fallback "hi" 400 {[ "error" := VStr "" ]} (VStr ""));
    reflexivity.
Defined.

Lemma formatMessage_throws (v : value) e :
  formatMessage v = Throw e ↔
  e = TypeError ∧ truthy v = true ∧ ∀ s, v ≠ VStr s.
Proof.
  unfold formatMessage. destruct (truthy v) eqn:Ht; simpl.
  - destruct v as [| |b|r|s|l|m]; try discriminate Ht.
    all: split; [intros H|intros (He & _ & H)].
    all: try (by destruct (H s)).
    all: try discriminate H.
    all: try (injection H as <-; by repeat split).
    all: by rewrite He.
  - split; [done|]. by intros (_ & ? & _).
Qed.

(** X13.  The bot turn a settled request leaves makes [formatMessage] throw
    exactly when the response had a 2xx status and a [response] property
    that is truthy and not a string; after a failure of any kind the turn
    always formats. *)
Theorem reply_format_throws_iff o now :
  formatMessage (text (botTurn o now)) = Throw TypeError ↔
  ∃ status data v,
    o = Response status (Some data)
    ∧ ok status = true
    ∧ Get data "response" = Normal v
    ∧ truthy v = true
    ∧ ∀ s, v ≠ VStr s.
Proof.
  rewrite formatMessage_throws. split.
  - intros (_ & Ht & Hs). unfold botTurn in *.
    destruct o as [|status [data|]]; simpl in *;
      try (by destruct (Hs _ eq_refl)).
    destruct (ok status) eqn:Hok.
    + destruct (Get data "response") as [v|] eqn:Hv; simpl in *;
        [|by destruct (Hs _ eq_refl)].
      by exists status, data, v.
    + destruct (Get data "error") as [e|]; simpl in *;
        [|by destruct (Hs _ eq_refl)].
      destruct (ToString _); simpl in *; by destruct (Hs _ eq_refl).
  - intros (status & data & v & -> & Hok & Hv & Ht & Hs).
    by rewrite (botTurn_ok _ _ _ _ Hok Hv).
Qed.

Lemma reply_format_throws_iff_witness :
  formatMessage
    (text (botTurn (Response 200 (Some (VObj {[ "response" := VNum "42" ]}))) 5%Z))
  = Throw TypeError.
Proof.
  apply (proj2 (reply_format_throws_iff
                  (Response 200 (Some (VObj {[ "response" := VNum "42" ]}))) 5%Z)).
  exists 200%Z, (VObj {[ "response" := VNum "42" ]}), (VNum "42").
  repeat split. intros s. discriminate.
Defined.

Lemma hasLineFeed_append s1 s2 :
  hasLineFeed (s1 +:+ s2) = hasLineFeed s1 || hasLineFeed s2.
Proof.
  induction s1 as [|a s1 IH]; [done|]. rewrite append_cons. simpl.
  by rewrite IH, orb_assoc.
Qed.

Lemma nl2br_hasLineFeed s : hasLineFeed (nl2br s) = false.
Proof.
  induction s as [|a s IH]; [done|]. simpl.
  destruct (code a =? 10)%N eqn:Ha.
  - by rewrite hasLineFeed_append, IH.
  - simpl. by rewrite Ha, IH.
Qed.

(** X14.  The markup [formatMessage] hands to the page never holds a line
    feed: each one has become a [br] tag. *)
Theorem markup_has_no_line_feed (v : value) html :
  formatMessage v = Normal (RSpan html) → hasLineFeed html = false.
Proof.
  unfold formatMessage. destruct (truthy v); simpl; [|done].
  destruct v; try done. intros [= <-]. apply nl2br_hasLineFeed.
Qed.

Lemma markup_has_no_line_feed_witness :
  formatMessage (VStr ("a" +:+ LF +:+ "b")) = Normal (RSpan "a<br/>b")
  ∧ hasLineFeed "a<br/>b" = false.
Proof.
  split; [reflexivity|].
  apply (markup_has_no_line_feed (VStr ("a" +:+ LF +:+ "b")) "a<br/>b").
  reflexivity.
Defined.

(** X15.  What the user types goes through the same formatter as the
    replies and is not escaped: a message without asterisks and line feeds
    becomes, byte for byte, the inner HTML of its own bubble. *)
Theorem typed_text_is_raw_markup s now st :
  isEmpty (trim s) = false →
  hasStar s = false →
  hasLineFeed s = false →
  ∃ st1 effs,
    sendMessage (VStr s) now st = Normal (st1, effs)
    ∧ last (messages st1) = Some (mkMessage user (VStr s) now)
    ∧ renderMessage (mkMessage user (VStr s) now)
      = Normal (mkMessageView "message user" false (RSpan s) true).
Proof.
  intros Hne Hstar Hlf. eexists _, _.
  split; [by apply sendMessage_nonblank|]. split.
  - simpl. apply last_snoc.
  - unfold renderMessage. simpl text.
    rewrite (formatMessage_string _ (nonblank_nonempty _ Hne)).
    by rewrite (replaceBold_noStar _ Hstar), (nl2br_noLineFeed _ Hlf).
Qed.

Lemma typed_text_is_raw_markup_witness :
  isEmpty (trim "<b>hi</b>") = false
  ∧ hasStar "<b>hi</b>" = false
  ∧ hasLineFeed "<b>hi</b>" = false
  ∧ ∃ st1 effs,
      sendMessage (VStr "<b>hi</b>") 3%Z (initial 0%Z) = Normal (st1, effs)
      ∧ last (messages st1) = Some (mkMessage user (VStr "<b>hi</b>") 3%Z)
      ∧ renderMessage (mkMessage user (VStr "<b>hi</b>") 3%Z)
        = Normal (mkMessageView "message user" false (RSpan "<b>hi</b>") true).
Proof.
  split; [reflexivity|]. split; [reflexivity|]. split; [reflexivity|].
  apply (typed_text_is_raw_markup "<b>hi</b>" 3%Z (initial 0%Z)); reflexivity.
Defined.

Lemma renderMessage_throws (m : Message) e :
  renderMessage m = Throw e ↔ formatMessage (text m) = Throw e.
Proof.
  unfold renderMessage. destruct (formatMessage (text m)); simpl.
  - split; intros H; discriminate H.
  - split; by intros [= ->].
Qed.

(** X16.  The rows of a conversation that renders are as many as its
    turns and stand in the same order, each the rendering of its turn. *)
Theorem conversation_renders_in_order msgs (vs : list MessageView) :
  renderMessages msgs = Normal vs →
  length vs = length msgs
  ∧ ∀ i m, msgs !! i = Some m →
      ∃ v, vs !! i = Some v ∧ renderMessage m = Normal v.
Proof.
  revert vs. induction msgs as [|m0 msgs IH]; intros vs; simpl.
  { intros [= <-]. split; [done|]. by intros i m. }
  destruct (renderMessage m0) as [v0|] eqn:H0; simpl; [|done].
  destruct (renderMessages msgs) as [vs'|] eqn:Hr; simpl; [|done].
  intros [= <-]. destruct (IH vs' eq_refl) as [Hlen Hrows].
  split; [by simpl; rewrite Hlen|].
  intros [|i] m Hm; simplify_eq/=; [by exists v0|]. by apply Hrows.
Qed.

Lemma conversation_renders_in_order_witness :
  renderMessages [mkMessage user (VStr "hi") 1%Z; mkMessage bot (VStr "**yo**") 2%Z]
  = Normal [mkMessageView "message user" false (RSpan "hi") true;
            mkMessageView "message bot" true (RSpan "<strong>yo</strong>") false]
  ∧ length [mkMessageView "message user" false (RSpan "hi") true;
            mkMessageView "message bot" true (RSpan "<strong>yo</strong>") false]
    = length [mkMessage user (VStr "hi") 1%Z; mkMessage bot (VStr "**yo**") 2%Z].
Proof.
  split; [reflexivity|].
  exact (proj1 (conversation_renders_in_order
                  [mkMessage user (VStr "hi") 1%Z; mkMessage bot (VStr "**yo**") 2%Z]
                  _ eq_refl)).
Defined.

(** X17.  The expression [messages.map(...)] throws exactly when one of
    the turns makes [formatMessage] throw; one such turn leaves no row at
    all, whichever the others are. *)
Theorem message_rows_throw_iff msgs :
  renderMessages msgs = Throw TypeError ↔
  ∃ m, m ∈ msgs ∧ formatMessage (text m) = Throw TypeError.
Proof.
  induction msgs as [|m0 msgs IH]; simpl.
  { split; [done|]. intros (m & Hm & _). by apply elem_of_nil in Hm. }
  destruct (renderMessage m0) as [v0|e0] eqn:H0; simpl.
  - destruct (renderMessages msgs) as [vs|e] eqn:Hr; simpl.
    + split; [done|]. intros (m & Hm & Ht).
      apply elem_of_cons in Hm as [->|Hm].
      * apply renderMessage_throws in Ht. congruence.
      * assert (Normal vs = Throw TypeError) as Habs; [|done].
        apply IH. by exists m.
    + split.
      * intros [= ->]. destruct (proj1 IH eq_refl) as (m & Hm & Ht).
        exists m. split; [by apply elem_of_cons; right|done].
      * intros _. f_equal.
        assert (∀ l e', renderMessages l = Throw e' → e' = TypeError) as Hty.
        { induction l as [|x l IHl]; simpl; [done|]. intros e'.
          destruct (renderMessage x) as [|ex] eqn:Hx; simpl.
          - destruct (renderMessages l) eqn:Hl; simpl; [done|].
            intros [= <-]. by apply IHl.
          - intros [= <-]. apply renderMessage_throws in Hx.
            by apply formatMessage_throws in Hx as [-> _]. }
        by apply (Hty msgs).
  - apply renderMessage_throws in H0.
    pose proof (proj1 (formatMessage_throws _ _) H0) as [-> _].
    split; [|done]. intros _. exists m0. split; [by apply elem_of_cons; left|done].
Qed.

Lemma message_rows_throw_iff_witness :
  renderMessages [mkMessage user (VStr "hi") 1%Z; mkMessage bot (VBool true) 2%Z]
  = Throw TypeError.
Proof.
  apply (proj2 (message_rows_throw_iff
                  [mkMessage user (VStr "hi") 1%Z; mkMessage bot (VBool true) 2%Z])).
  exists (mkMessage bot (VBool true) 2%Z). split; [|reflexivity].
  apply list_elem_of_In. simpl. auto.
Defined.

End Replies.

(** ** Requests that overlap *)

Section Overlap.

Implicit Types (s : string) (now : Time) (sys : System) (o : FetchOutcome).

Lemma step_speech_result sys s now :
  speechSupported sys = true →
  isEmpty (trim s) = false →
  step (SpeechResult s) now sys
  = mkSystem (sent s now (app sys)) (inflight sys ++ [sendMessage_resume s]) true
      (recognizing sys) (issued sys ++ [chatRequest s]).
Proof.
  intros Hsup Hs. unfold step. rewrite Hsup. unfold onresult.
  rewrite (sendMessage_nonblank _ _ _ Hs). unfold dispatch. simpl.
  by rewrite Hsup, orb_false_r.
Qed.

(** X18.  Nothing orders the replies by their requests.  When a second
    message is sent by voice while the first is in flight and its request
    settles first, the busy flag goes off although the first request is
    still out, and the two bot turns stand in the order in which the
    requests settled, the reply to the second message first. *)
Theorem replies_follow_settle_order t0 s1 s2 t1 t2 t3 t4 o1 o2 :
  isEmpty (trim s1) = false →
  isEmpty (trim s2) = false →
  isLoading
    (app (run [(SpeechResult s1, t1); (SpeechResult s2, t2); (Settle 2 o2, t3)]
            (boot t0 true))) = false
  ∧ inflight
      (run [(SpeechResult s1, t1); (SpeechResult s2, t2); (Settle 2 o2, t3)]
         (boot t0 true))
    = [onSuggestions; sendMessage_resume s1]
  ∧ messages
      (app (run [(SpeechResult s1, t1); (SpeechResult s2, t2);
                 (Settle 2 o2, t3); (Settle 1 o1, t4)]
              (boot t0 true)))
    = [greeting t0; mkMessage user (VStr s1) t1; mkMessage user (VStr s2) t2;
       botTurn o2 t3; botTurn o1 t4].
Proof.
  intros H1 H2. cbn [run].
  rewrite (step_speech_result (boot t0 true) s1 t1 eq_refl H1).
  rewrite (step_speech_result (mkSystem _ _ true _ _) s2 t2 eq_refl H2).
  cbn -[sendMessage_resume sent].
  split; [apply resume_isLoading|]. split; [done|].
  by rewrite !resume_messages.
Qed.

Lemma replies_follow_settle_order_witness :
  isEmpty (trim "one") = false
  ∧ isEmpty (trim "two") = false
  ∧ messages
      (app (run [(SpeechResult "one", 1%Z); (SpeechResult "two", 2%Z);
                 (Settle 2 (Response 200 (Some (VObj {[ "response" := VStr "re: two" ]}))), 3%Z);
                 (Settle 1 (Response 200 (Some (VObj {[ "response" := VStr "re: one" ]}))), 4%Z)]
              (boot 0%Z true)))
    = [greeting 0%Z; mkMessage user (VStr "one") 1%Z; mkMessage user (VStr "two") 2%Z;
       mkMessage bot (VStr "re: two") 3%Z; mkMessage bot (VStr "re: one") 4%Z].
Proof.
  split; [reflexivity|]. split; [reflexivity|].
  exact (proj2 (proj2 (replies_follow_settle_order 0%Z "one" "two" 1%Z 2%Z 3%Z 4%Z
    (Response 200 (Some (VObj {[ "response" := VStr "re: one" ]})))
    (Response 200 (Some (VObj {[ "response" := VStr "re: two" ]})))
    eq_refl eq_refl))).
Defined.

End Overlap.

(** ** What can break the page *)

Section Breakage.

Lemma renderMessages_throws_elem (msgs : list Message) e :
  renderMessages msgs = Throw e →
  ∃ m, m ∈ msgs ∧ formatMessage (text m) = Throw e.
Proof.
  induction msgs as [|m0 msgs IH]; simpl; [done|].
  destruct (renderMessage m0) as [v0|e0] eqn:H0; simpl.
  - destruct (renderMessages msgs) as [vs|e1]; simpl; [done|].
    intros [= ->]. destruct (IH eq_refl) as (m & Hm & Ht).
    exists m. split; [by apply elem_of_cons; right|done].
  - intros [= ->]. exists m0. split; [by apply elem_of_cons; left|].
    by apply renderMessage_throws.
Qed.

(** X19.  Nothing the user types can make the page disappear.  When the
    page of a reachable state is not shown, because the component throws
    or because React refuses the tree, either a bot turn holds a text that
    is truthy and not a string, or the suggestions are at fault: the panel
    expression throws, or a suggestion to be shown is or holds a plain
    object. *)
Theorem page_is_lost_only_to_data t0 supported evs positive :
  shown positive (app (run evs (boot t0 supported))) = false →
  (∃ m,
      m ∈ messages (app (run evs (boot t0 supported)))
      ∧ type m = bot
      ∧ truthy (text m) = true
      ∧ ∀ s, text m ≠ VStr s)
  ∨ (∃ e, panelExpression positive (app (run evs (boot t0 supported))) = Throw e)
  ∨ (∃ l,
        panelExpression positive (app (run evs (boot t0 supported)))
        = Normal (Some l)
        ∧ forallb validChild l = false).
Proof.
  unfold shown, renderPage.
  destruct (renderMessages _) as [rs|e] eqn:Hrows; simpl.
  - destruct (panelExpression _ _) as [[l|]|e]; simpl; intros H; try done.
    + right. right. by exists l.
    + right. left. by exists e.
  - intros _. left.
    apply renderMessages_throws_elem in Hrows as (m & Hm & Ht).
    apply formatMessage_throws in Ht as (_ & Htruthy & Hs).
    exists m. split; [done|]. split; [|done].
    destruct (reachable_invariant t0 supported evs) as [tags Hinv].
    pose proof (inv_user _ _ Hinv) as Huser. rewrite Forall_forall in Huser.
    destruct (type m) eqn:Hty; [|done].
    destruct (Huser m Hm Hty) as (s & Hs' & _). by destruct (Hs s).
Qed.

Lemma page_is_lost_only_to_data_witness :
  shown (λ _, false)
    (app (run
       [(SpeechResult "hi", 1%Z);
        (Settle 1 (Response 200 (Some (VObj {[ "response" := VNum "42" ]}))), 2%Z)]
       (boot 0%Z true)))
  = false
  ∧ ((∃ m,
        m ∈ messages (app (run
              [(SpeechResult "hi", 1%Z);
               (Settle 1 (Response 200 (Some (VObj {[ "response" := VNum "42" ]}))), 2%Z)]
              (boot 0%Z true)))
        ∧ type m = bot
        ∧ truthy (text m) = true
        ∧ ∀ s, text m ≠ VStr s)
     ∨ (∃ e,
          panelExpression (λ _, false) (app (run
              [(SpeechResult "hi", 1%Z);
               (Settle 1 (Response 200 (Some (VObj {[ "response" := VNum "42" ]}))), 2%Z)]
              (boot 0%Z true)))
          = Throw e)
     ∨ (∃ l,
          panelExpression (λ _, false) (app (run
              [(SpeechResult "hi", 1%Z);
               (Settle 1 (Response 200 (Some (VObj {[ "response" := VNum "42" ]}))), 2%Z)]
              (boot 0%Z true)))
          = Normal (Some l)
          ∧ forallb validChild l = false)).
Proof.
  split; [reflexivity|].
  apply (page_is_lost_only_to_data 0%Z true
           [(SpeechResult "hi", 1%Z);
            (Settle 1 (Response 200 (Some (VObj {[ "response" := VNum "42" ]}))), 2%Z)]
           (λ _, false)).
  reflexivity.
Defined.

End Breakage.

(** ** The send button *)

Section SendButton.

(** X20.  An enabled send button always submits the draft as it stands,
    and a second click changes nothing: the first one has emptied the
    draft and set the busy flag, which disables the button. *)
Theorem send_button_submits_once (sys : System) (now now' : Time) :
  (sendDisabled (app sys) = false →
   messages (app (step ClickSend now sys))
   = messages (app sys) ++ [mkMessage user (VStr (input (app sys))) now]
   ∧ inflight (step ClickSend now sys)
     = inflight sys ++ [sendMessage_resume (input (app sys))])
  ∧ step ClickSend now' (step ClickSend now sys) = step ClickSend now sys.
Proof.
  unfold step at 1 2 4 5. destruct (sendDisabled (app sys)) eqn:Hd.
  { split; [done|]. unfold step. by rewrite Hd. }
  unfold sendDisabled in Hd. apply orb_false_elim in Hd as [Hne Hl].
  rewrite sendMessage_default, (sendMessage_nonblank _ _ _ Hne).
  split; [done|]. reflexivity.
Qed.

Lemma send_button_submits_once_witness :
  sendDisabled (app (mkSystem (setInput "hi" (initial 0%Z)) [] false false [])) = false
  ∧ messages (app (step ClickSend 3%Z (mkSystem (setInput "hi" (initial 0%Z)) [] false false [])))
    = [greeting 0%Z; mkMessage user (VStr "hi") 3%Z].
Proof.
  split; [reflexivity|].
  exact (proj1 (proj1 (send_button_submits_once
                         (mkSystem (setInput "hi" (initial 0%Z)) [] false false []) 3%Z 4%Z)
                  eq_refl)).
Defined.

End SendButton.

(** ** More of the model on concrete inputs *)

Section MoreExamples.

Example error_object_with_own_toString :
  botTurn (Response 503
             (Some (VObj {[ "error" := VObj {[ "toString" := VStr "x" ]} ]}))) 3%Z
  = mkMessage bot (VStr connectFailureText) 3%Z.
Proof. reflexivity. Qed.

Example error_array_holding_such_object :
  convertible (VArr [VStr "a"; VArr [VObj {[ "toString" := VNull ]}]]) = false.
Proof. reflexivity. Qed.

Example format_pair_after_broken_span :
  formatMessage (VStr ("**a" +:+ LF +:+ "b**c**"))
  = Normal (RSpan "**a<br/>b<strong>c</strong>").
Proof. reflexivity. Qed.

Example format_lone_asterisks :
  formatMessage (VStr "2*3 and *4") = Normal (RSpan "2*3 and *4").
Proof. reflexivity. Qed.

Example page_lost_to_string_suggestions :
  renderPage (λ _, false) (setSuggestions (VStr "abc") (initial 0%Z))
  = Throw TypeError.
Proof. reflexivity. Qed.

Example page_lost_to_object_suggestion :
  panelExpression (λ _, false)
    (setSuggestions (VArr [VStr "a"; VObj ∅]) (initial 0%Z))
  = Normal (Some [VStr "a"; VObj ∅])
  ∧ shown (λ _, false) (setSuggestions (VArr [VStr "a"; VObj ∅]) (initial 0%Z))
    = false.
Proof. split; reflexivity. Qed.

Example page_shown_at_boot : shown (λ _, false) (initial 0%Z) = true.
Proof. reflexivity. Qed.

Example second_start_throws :
  toggleVoiceInput true true (initial 0%Z) = Throw InvalidStateError.
Proof. reflexivity. Qed.

End MoreExamples.
